(** * Sandpiper birthdays cog: scheduling engine

    A shallow embedding of [sandpiper/birthdays/cog.py] (class [Birthdays]),
    of [utc_now] and [localize_time_to_datetime] from
    [sandpiper/common/time.py], and of the completion hook of
    [sandpiper/bios/cog.py] that calls the scheduler, with the properties
    of the birthday scheduler stated over it.

    Conventions.
    - Durations ([dt.timedelta]) are integers counting microseconds, the
      resolution of the library type.
    - A calendar date ([dt.date]) is represented by its proleptic Gregorian
      ordinal ([date.toordinal()]); the library compares dates and adds
      days to them exactly as on these integers.  Year, month and day are
      recovered with the library's own conversion ([ord2ymd]).
    - A naive datetime is the number of microseconds of wall-clock time
      since 0001-01-01T00:00; an aware datetime pairs it with the UTC
      offset of its [tzinfo].
    - The range of [dt.date] (ordinals 1 to 3652059, the years 1 to 9999)
      is checked where the cog computes a date from another one and a
      duration: [date_add] and [date_sub] raise [OverflowError] as the
      library does, and so does [timedelta_of_days].  The datetimes the
      cog is handed (the readings of the clock, the [now] of a call) are
      values of the library; arithmetic on instants is not checked.
    - A coroutine is a function of the state, run from its call to its
      return: an [await] is a plain call.  [schedule_birthday] is given a
      second time in two stretches, before and after the point where it
      awaits the directory, so that two calls suspended there can be
      interleaved.
    - The directory's reads return: the user directory is not part of
      the component, and a read that raises is not modelled.
    - The records written with [logger.info] and [logger.debug] are not
      part of the trace; the error log is. *)

From Stdlib Require Import ZArith Lia String List Bool Ascii DecimalString.
From stdpp Require Import base option list gmap.

Local Open Scope Z_scope.

(** ** The calendar of Python's [datetime] module *)

Module Calendar.

Definition is_leap (year : Z) : bool :=
  (year mod 4 =? 0) && (negb (year mod 100 =? 0) || (year mod 400 =? 0)).

Definition days_before_year (year : Z) : Z :=
  let y := year - 1 in y * 365 + y / 4 - y / 100 + y / 400.

Definition DAYS_IN_MONTH (month : Z) : Z :=
  match month with
  | 1 => 31 | 2 => 28 | 3 => 31 | 4 => 30 | 5 => 31 | 6 => 30
  | 7 => 31 | 8 => 31 | 9 => 30 | 10 => 31 | 11 => 30 | 12 => 31
  | _ => -1
  end.

Definition DAYS_BEFORE_MONTH (month : Z) : Z :=
  match month with
  | 1 => 0 | 2 => 31 | 3 => 59 | 4 => 90 | 5 => 120 | 6 => 151
  | 7 => 181 | 8 => 212 | 9 => 243 | 10 => 273 | 11 => 304 | 12 => 334
  | _ => -1
  end.

Definition days_in_month (year month : Z) : Z :=
  if (month =? 2) && is_leap year then 29 else DAYS_IN_MONTH month.

Definition days_before_month (year month : Z) : Z :=
  DAYS_BEFORE_MONTH month + (if (2 <? month) && is_leap year then 1 else 0).

Definition ymd2ord (year month day : Z) : Z :=
  days_before_year year + days_before_month year month + day.

Definition DI400Y : Z := 146097.
Definition DI100Y : Z := 36524.
Definition DI4Y : Z := 1461.

(** [_ord2ymd]: ordinal to (year, month, day), 0001-01-01 being day 1. *)
Definition ord2ymd (n : Z) : Z * Z * Z :=
  let n := n - 1 in
  let n400 := n / DI400Y in
  let n := n mod DI400Y in
  let year := n400 * 400 + 1 in
  let n100 := n / DI100Y in
  let n := n mod DI100Y in
  let n4 := n / DI4Y in
  let n := n mod DI4Y in
  let n1 := n / 365 in
  let n := n mod 365 in
  let year := year + n100 * 100 + n4 * 4 + n1 in
  if (n1 =? 4) || (n100 =? 4) then (year - 1, 12, 31)
  else
    let leapyear := (n1 =? 3) && (negb (n4 =? 24) || (n100 =? 3)) in
    let month := Z.shiftr (n + 50) 5 in
    let preceding :=
      DAYS_BEFORE_MONTH month + (if (2 <? month) && leapyear then 1 else 0) in
    if n <? preceding then
      let month := month - 1 in
      let preceding :=
        preceding
        - (DAYS_IN_MONTH month + (if (month =? 2) && leapyear then 1 else 0)) in
      (year, month, n - preceding + 1)
    else (year, month, n - preceding + 1).

End Calendar.

(** ** Durations, dates and datetimes *)

Definition US_PER_SECOND : Z := 1000000.
Definition US_PER_DAY : Z := 86400 * US_PER_SECOND.

(** [dt.timedelta(days=..)], [dt.timedelta(hours=..)], and convenience
    constructors for minutes and seconds. *)
Definition timedelta_days (n : Z) : Z := n * US_PER_DAY.
Definition timedelta_hours (n : Z) : Z := n * 3600 * US_PER_SECOND.
Definition timedelta_minutes (n : Z) : Z := n * 60 * US_PER_SECOND.
Definition timedelta_seconds (n : Z) : Z := n * US_PER_SECOND.

(** A [dt.date], by its ordinal. *)
Definition date := Z.

Definition date_year (d : date) : Z := (Calendar.ord2ymd d).1.1.
Definition date_month (d : date) : Z := (Calendar.ord2ymd d).1.2.
Definition date_day (d : date) : Z := (Calendar.ord2ymd d).2.

(** [dt.date.max.toordinal()], the ordinal of 9999-12-31;
    [dt.date.min.toordinal()] is 1. *)
Definition MAXORDINAL : Z := 3652059.

(** [delta.days]: the whole days of a duration, rounded down. *)
Definition timedelta_get_days (delta : Z) : Z := delta / US_PER_DAY.

(** The literal [dt.date(y, m, d)], used to write inputs down. *)
Definition mkdate (y m d : Z) : date := Calendar.ymd2ord y m d.

(** A naive [dt.datetime]: microseconds of wall clock since 0001-01-01. *)
Definition naive := Z.

Definition naive_of_date (d : date) : naive := (d - 1) * US_PER_DAY.
Definition naive_date (w : naive) : date := w / US_PER_DAY + 1.

(** The literal [dt.datetime(y, mo, d, h, mi)]. *)
Definition mknaive (y mo d h mi : Z) : naive :=
  naive_of_date (mkdate y mo d) + timedelta_hours h + timedelta_minutes mi.

(** A pytz timezone, by the two things the scheduler asks of it:
    the offset [localize] attaches to a naive wall-clock time, and the
    offset in force at a UTC instant (what [fromutc] applies). *)
Record TimezoneType := {
  tz_localize_offset : naive -> Z;
  tz_utcoffset_at : Z -> Z;
}.

(** [pytz.UTC] and fixed-offset zones. *)
Definition fixed_zone (offset : Z) : TimezoneType :=
  {| tz_localize_offset := fun _ => offset; tz_utcoffset_at := fun _ => offset |}.
Definition UTC : TimezoneType := fixed_zone 0.

(** An aware [dt.datetime]. *)
Record datetime := {
  dt_wall : naive;
  dt_utcoffset : Z;
}.

(** The absolute instant of an aware datetime, as UTC wall-clock time. *)
Definition instant (d : datetime) : Z := dt_wall d - dt_utcoffset d.

(** [tz.localize(naive)] *)
Definition localize (tz : TimezoneType) (w : naive) : datetime :=
  {| dt_wall := w; dt_utcoffset := tz_localize_offset tz w |}.

(** [d.astimezone(tz)] *)
Definition astimezone (d : datetime) (tz : TimezoneType) : datetime :=
  let u := instant d in
  {| dt_wall := u + tz_utcoffset_at tz u; dt_utcoffset := tz_utcoffset_at tz u |}.

(** [d.date()]: the calendar date on the wall clock of [d]'s own zone. *)
Definition dt_date (d : datetime) : date := naive_date (dt_wall d).

(** [a - b] on aware datetimes: the difference of the instants. *)
Definition dt_diff (a b : datetime) : Z := instant a - instant b.

(** [d - timedelta] on an aware datetime: wall-clock arithmetic, same zone. *)
Definition dt_minus (d : datetime) (delta : Z) : datetime :=
  {| dt_wall := dt_wall d - delta; dt_utcoffset := dt_utcoffset d |}.


(** The two calendar conversions agree at ordinal [n], and the fields
    [ord2ymd] gives it name a day of the calendar. *)
Definition calendar_agrees (n : Z) : bool :=
  let '(y, m, d) := Calendar.ord2ymd n in
  (Calendar.ymd2ord y m d =? n)
  && (1 <=? m) && (m <=? 12)
  && (1 <=? d) && (d <=? Calendar.days_in_month y m).

(** ** The cog's collaborators *)

(** Modelled from the spec: [PrivacyType] of [sandpiper.user_data], whose
    source is not part of the component; the spec gives each privacy flag
    the values PUBLIC and PRIVATE. *)
Inductive PrivacyType := PRIVATE | PUBLIC.

#[global] Instance PrivacyType_eq_dec : EqDecision PrivacyType.
Proof. solve_decision. Defined.

(** The exceptions that can travel through the cog. *)
Inductive exn :=
| RuntimeError      (* 'UserData cog is not loaded.' *)
| ValueError        (* dt.datetime(...) with a day out of range for the month *)
| IndexError        (* random.choice on an empty sequence *)
| KeyError          (* str.format on a field it is given no argument for *)
| OverflowError     (* a date or a duration out of the library's range *)
| DeliveryError.    (* a failed channel.send *)

(** The outcome of a call: a value, or an exception. *)
Inductive Res (A : Type) :=
| Ok (a : A)
| Raise (e : exn).
Arguments Ok {A} a.
Arguments Raise {A} e.

(** The user directory, as far as the cog calls it.  A privacy getter may
    return [None]; the cog tests its result with [is].  The range query is
    the directory's own business: it is taken as given, and reads the
    stored notification times.  Every read returns: the directory is not
    part of the component, and a read that raises is not modelled. *)
Record Database := {
  get_birthday : Z -> option date;
  get_privacy_birthday : Z -> option PrivacyType;
  get_timezone : Z -> option TimezoneType;
  get_privacy_timezone : Z -> option PrivacyType;
  get_preferred_name : Z -> option string;
  get_privacy_preferred_name : Z -> option PrivacyType;
  get_age : Z -> option Z;
  get_privacy_age : Z -> option PrivacyType;
  get_guild_birthday_channel : Z -> option Z;
  get_birthdays_range :
    gmap Z naive -> date -> date -> option datetime -> list (Z * date);
}.

Record Member := { display_name : string }.

Record Guild := {
  guild_id : Z;
  guild_get_member : Z -> option Member;
}.

Record User := { mutual_guilds : list Guild }.

Record TextChannel := {
  channel_id : Z;
  send_fails : bool;
}.

Record Bot := {
  get_cog_UserData : option Database;
  get_user : Z -> option User;
  get_channel : Z -> option TextChannel;
}.

(** [Pronouns] of [sandpiper.user_data], by the fields
    [format_birthday_message] reads. *)
Record Pronouns := {
  subjective : string;
  objective : string;
  determiner : string;
  possessive : string;
  reflexive : string;
  to_be_conjugation : string;
  subjective_to_be_contraction : string;
}.

(** A keyword argument of [str.format]: the cog passes strings, and the
    age, an [int] or [None]. *)
Inductive FormatArg :=
| ArgStr (s : string)
| ArgInt (n : Z)
| ArgNone.

(** What the process takes from its surroundings: the successive readings
    of [dt.datetime.now()], the zone [tzlocal.get_localzone()] answers,
    the successive draws of [random]; and, of what the cog imports and
    calls without its source being part of the component, the constant
    [common_pronouns['they']] and the methods of [str] that
    [format_birthday_message] calls.  [str.format] returns the text or
    raises. *)
Record Host := {
  clock : nat -> naive;
  localzone : TimezoneType;
  rand : nat -> nat;
  common_pronouns_they : Pronouns;
  str_capitalize : string -> string;
  str_upper : string -> string;
  str_format : string -> list (string * FormatArg) -> Res string;
}.

(** The cog object: [self.bot] and the two template pools. *)
Record Birthdays := {
  bot : Bot;
  message_templates_no_age : list string;
  message_templates_with_age : list string;
}.

(** One birthday message: the arguments [format_birthday_message]
    receives for it, and the text it returns, which is what is sent. *)
Record BirthdayMessage := {
  msg_template : string;
  msg_user_id : Z;
  msg_name : string;
  msg_age : option Z;
  msg_text : string;
}.

(** What leaves the cog: the calls to [asyncio.sleep], to a channel's
    [send], to the directory's range query, and the error log.  The
    argument of [asyncio.sleep] is [delta.total_seconds()], kept here as
    the exact duration.  The records of [logger.info] and [logger.debug]
    are not traced. *)
Inductive Event :=
| EvSleep (duration : Z)
| EvSend (channel : Z) (msg : BirthdayMessage)
| EvQuery (start stop : date) (max_last_notification_time : option datetime)
| EvLogError (e : exn).

(** ** Mutable state *)

Inductive TaskStatus :=
| Pending
| Cancelled
| Finished (raised : option exn).

#[global] Instance exn_eq_dec : EqDecision exn.
Proof. solve_decision. Defined.

#[global] Instance TaskStatus_eq_dec : EqDecision TaskStatus.
Proof. solve_decision. Defined.

(** An [asyncio.Task] wrapping [send_birthday_message(user_id, delta)]. *)
Record Task := {
  task_user : Z;
  task_delta : Z;
  task_status : TaskStatus;
}.

Record State := {
  tasks : gmap Z nat;                 (* self.tasks, user_id to task handle *)
  loop_tasks : list Task;             (* every task created on bot.loop *)
  last_birthday_notification : gmap Z naive;  (* the directory's column *)
  clock_reads : nat;
  draws : nat;
  log : list Event;
}.

Definition with_tasks (f : gmap Z nat -> gmap Z nat) (s : State) : State :=
  {| tasks := f (tasks s); loop_tasks := loop_tasks s;
     last_birthday_notification := last_birthday_notification s;
     clock_reads := clock_reads s; draws := draws s; log := log s |}.

Definition with_loop_tasks (f : list Task -> list Task) (s : State) : State :=
  {| tasks := tasks s; loop_tasks := f (loop_tasks s);
     last_birthday_notification := last_birthday_notification s;
     clock_reads := clock_reads s; draws := draws s; log := log s |}.

Definition with_last_notification
    (f : gmap Z naive -> gmap Z naive) (s : State) : State :=
  {| tasks := tasks s; loop_tasks := loop_tasks s;
     last_birthday_notification := f (last_birthday_notification s);
     clock_reads := clock_reads s; draws := draws s; log := log s |}.

Definition tick_clock (s : State) : State :=
  {| tasks := tasks s; loop_tasks := loop_tasks s;
     last_birthday_notification := last_birthday_notification s;
     clock_reads := S (clock_reads s); draws := draws s; log := log s |}.

Definition tick_draws (s : State) : State :=
  {| tasks := tasks s; loop_tasks := loop_tasks s;
     last_birthday_notification := last_birthday_notification s;
     clock_reads := clock_reads s; draws := S (draws s); log := log s |}.

Definition emit (e : Event) (s : State) : State :=
  {| tasks := tasks s; loop_tasks := loop_tasks s;
     last_birthday_notification := last_birthday_notification s;
     clock_reads := clock_reads s; draws := draws s; log := log s ++ [e] |}.

Definition initial_state : State :=
  {| tasks := ∅; loop_tasks := []; last_birthday_notification := ∅;
     clock_reads := 0%nat; draws := 0%nat; log := [] |}.

(** ** State and exceptions

    An exception leaves the state as it was when it was raised. *)

Definition M (A : Type) : Type := State -> Res A * State.

Definition ret {A} (a : A) : M A := fun s => (Ok a, s).

Definition raise {A} (e : exn) : M A := fun s => (Raise e, s).

Definition bind {A B} (m : M A) (k : A -> M B) : M B :=
  fun s =>
    match m s with
    | (Ok a, s') => k a s'
    | (Raise e, s') => (Raise e, s')
    end.

Definition gets {A} (f : State -> A) : M A := fun s => (Ok (f s), s).

Definition modify (f : State -> State) : M unit := fun s => (Ok tt, f s).

Notation "'let*' x ':=' m 'in' k" := (bind m (fun x => k))
  (at level 10, x name, m at level 100, k at level 200).
Notation "m ';;;' k" := (bind m (fun _ => k))
  (at level 100, k at level 200, right associativity).

(** ** Dates and durations within the library's range *)

(** [dt.timedelta(days=n)] for an [n] that is not a literal:
    [OverflowError] beyond 999999999 days either way. *)
Definition timedelta_of_days (n : Z) : M Z :=
  if (-999999999 <=? n) && (n <=? 999999999)
  then ret (timedelta_days n)
  else raise OverflowError.

(** [date + timedelta]: the whole days of the duration are added to the
    ordinal; [OverflowError] when the result is not the ordinal of a
    date. *)
Definition date_add (d : date) (delta : Z) : M date :=
  let o := d + timedelta_get_days delta in
  if (0 <? o) && (o <=? MAXORDINAL) then ret o else raise OverflowError.

(** [date - timedelta], which the library computes as
    [date + timedelta(-delta.days)]. *)
Definition date_sub (d : date) (delta : Z) : M date :=
  date_add d (timedelta_days (- timedelta_get_days delta)).

(** ** The cog *)

Section Cog.

Variable host : Host.
Variable self : Birthdays.

(** [dt.datetime.now()]: one reading of the host clock. *)
Definition datetime_now : M naive :=
  fun s => (Ok (clock host (clock_reads s)), tick_clock s).

(** [sandpiper.common.time.utc_now]: the reading of the host clock,
    localized in the host's own zone. *)
Definition utc_now : M datetime :=
  let* w := datetime_now in
  ret (localize (localzone host) w).

(** [random.choice] *)
Definition random_choice (seq : list string) : M string :=
  fun s =>
    match seq !! (rand host (draws s) mod length seq)%nat with
    | Some x => (Ok x, tick_draws s)
    | None => (Raise IndexError, s)
    end.

(** [dt.datetime(year, month, day)]: midnight of that day, or
    [ValueError] when the fields do not name a day of the calendar. *)
Definition datetime_ymd (year month day : Z) : M naive :=
  if (1 <=? month) && (month <=? 12)
     && (1 <=? day) && (day <=? Calendar.days_in_month year month)
  then ret (naive_of_date (Calendar.ymd2ord year month day))
  else raise ValueError.

(** [task.cancel()]: only a task that has not finished is affected. *)
Definition cancel (t : Task) : Task :=
  match task_status t with
  | Pending =>
      {| task_user := task_user t; task_delta := task_delta t;
         task_status := Cancelled |}
  | _ => t
  end.

Definition _create_birthday_task (user_id : Z) (midnight_delta : Z) : M unit :=
  modify (fun s =>
    let task := length (loop_tasks s) in
    with_tasks <[user_id := task]>
      (with_loop_tasks
         (fun l => l ++ [ {| task_user := user_id;
                             task_delta := midnight_delta;
                             task_status := Pending |} ]) s)).

(** [get_cog_UserData] is what [self.bot.get_cog('UserData')] and then
    [user_data.get_database()] answer; the second call, whose source is not
    part of the component, is taken to return the directory. *)
Definition _get_database : M Database :=
  match get_cog_UserData (bot self) with
  | None => raise RuntimeError
  | Some user_data => ret user_data
  end.

Definition _get_random_message (age : bool) : M string :=
  if age then random_choice (message_templates_with_age self)
  else random_choice (message_templates_no_age self).

(** The [logger.info] record of the cancellation is not traced. *)
Definition _try_cancel_task (user_id : Z) : M unit :=
  fun s =>
    match tasks s !! user_id with
    | Some task =>
        (Ok tt,
         with_tasks (delete user_id)
           (with_loop_tasks (alter cancel task) s))
    | None => (Ok tt, s)
    end.

(** [db.get_birthdays_range(start, end, max_last_notification_time)] *)
Definition query_birthdays_range
    (db : Database) (start stop : date)
    (max_last_notification_time : option datetime) : M (list (Z * date)) :=
  modify (emit (EvQuery start stop max_last_notification_time)) ;;;
  gets (fun s =>
    get_birthdays_range db (last_birthday_notification s)
      start stop max_last_notification_time).

Definition daily_loop_error (exc : exn) : M unit :=
  modify (emit (EvLogError exc)).

Definition schedule_birthday
    (user_id : Z) (birthday : date) (now : option datetime) : M bool :=
  let* db := _get_database in
  let* now := match now with
              | None => utc_now
              | Some now => ret now
              end in
  let today := dt_date now in
  _try_cancel_task user_id ;;;
  let timezone :=
    if bool_decide (get_privacy_timezone db user_id = Some PUBLIC)
    then get_timezone db user_id
    else None in
  let timezone := match timezone with
                  | None => UTC
                  | Some timezone => timezone
                  end in
  let* birthday_this_year :=
    datetime_ymd (date_year today) (date_month birthday) (date_day birthday) in
  let midnight_local := localize timezone birthday_this_year in
  let midnight_utc := astimezone midnight_local UTC in
  let midnight_delta := dt_diff midnight_utc now in
  if (0 <=? midnight_delta) && (midnight_delta <? timedelta_hours 24) then
    _create_birthday_task user_id midnight_delta ;;;
    ret true
  else
    let now_local := astimezone now timezone in
    if (midnight_delta <? 0)
       && (dt_date now_local =? naive_date birthday_this_year) then
      _create_birthday_task user_id midnight_delta ;;;
      ret true
    else ret false.

(** The body of [schedule_birthday] once more, in the two stretches the
    event loop runs it in.  The first goes from the call to the cancel of
    line 161; then the coroutine awaits the directory (lines 164 and 165)
    and the loop is free to run other coroutines; the second goes from the
    answer of the directory to the return.  [today] is [now.date()]. *)
Definition schedule_birthday_until_await
    (user_id : Z) (now : option datetime) : M (Database * datetime) :=
  let* db := _get_database in
  let* now := match now with
              | None => utc_now
              | Some now => ret now
              end in
  _try_cancel_task user_id ;;;
  ret (db, now).

Definition schedule_birthday_after_await
    (db : Database) (user_id : Z) (birthday : date) (now : datetime) : M bool :=
  let today := dt_date now in
  let timezone :=
    if bool_decide (get_privacy_timezone db user_id = Some PUBLIC)
    then get_timezone db user_id
    else None in
  let timezone := match timezone with
                  | None => UTC
                  | Some timezone => timezone
                  end in
  let* birthday_this_year :=
    datetime_ymd (date_year today) (date_month birthday) (date_day birthday) in
  let midnight_local := localize timezone birthday_this_year in
  let midnight_utc := astimezone midnight_local UTC in
  let midnight_delta := dt_diff midnight_utc now in
  if (0 <=? midnight_delta) && (midnight_delta <? timedelta_hours 24) then
    _create_birthday_task user_id midnight_delta ;;;
    ret true
  else
    let now_local := astimezone now timezone in
    if (midnight_delta <? 0)
       && (dt_date now_local =? naive_date birthday_this_year) then
      _create_birthday_task user_id midnight_delta ;;;
      ret true
    else ret false.

(** The [for] loop of [schedule_todays_birthdays]. *)
Fixpoint schedule_each
    (now : datetime) (birthdays : list (Z * date)) (scheduled_count : Z) : M Z :=
  match birthdays with
  | [] => ret scheduled_count
  | (user_id, birthday) :: rest =>
      let* scheduled := schedule_birthday user_id birthday (Some now) in
      schedule_each now rest
        (if scheduled : bool then scheduled_count + 1 else scheduled_count)
  end.

(** Returns the count it logs.  The arguments of the range query are
    evaluated from left to right, before the query is made. *)
Definition schedule_todays_birthdays : M Z :=
  let* db := _get_database in
  let* now := utc_now in
  let today := dt_date now in
  let* start := date_sub today (timedelta_days 1) in
  let* stop := date_add today (timedelta_days 1) in
  let* birthdays_today_tomorrow :=
    query_birthdays_range db start stop
      (Some (dt_minus now (timedelta_hours 24))) in
  schedule_each now birthdays_today_tomorrow 0.

Definition daily_loop : M Z := schedule_todays_birthdays.

(** [bday_channel.send(bday_msg)] *)
Definition channel_send (channel : TextChannel) (msg : BirthdayMessage) : M unit :=
  if send_fails channel then raise DeliveryError
  else modify (emit (EvSend (channel_id channel) msg)).

(** The text of [f"<@{user_id}>"]. *)
Definition ping_of (user_id : Z) : string :=
  ("<@" ++ NilZero.string_of_int (Z.to_int user_id) ++ ">")%string.

(** [format_birthday_message], with [pronouns] its default,
    [common_pronouns['they']].  The keyword arguments of [msg.format] are
    the three cases of each generated key, then [ping] and [age]. *)
Definition format_birthday_message
    (msg : string) (user_id : Z) (name : string) (age : option Z)
  : Res string :=
  let p := common_pronouns_they host in
  let generate_cases :=
    [ ("name", name);
      ("they", subjective p);
      ("them", objective p);
      ("their", determiner p);
      ("theirs", possessive p);
      ("themself", reflexive p);
      ("are", to_be_conjugation p);
      ("theyre", subjective_to_be_contraction p) ]%string in
  let args_generated_cases :=
    flat_map
      (fun '(k, v) =>
         [ (k, ArgStr v);
           (str_capitalize host k, ArgStr (str_capitalize host v));
           (str_upper host k, ArgStr (str_upper host v)) ])
      generate_cases in
  str_format host msg
    (args_generated_cases
     ++ [ ("ping"%string, ArgStr (ping_of user_id));
          ("age"%string,
           match age with Some age => ArgInt age | None => ArgNone end) ]).

(** An outcome, as a step of a coroutine. *)
Definition lift {A} (r : Res A) : M A :=
  match r with
  | Ok a => ret a
  | Raise e => raise e
  end.

(** The [for guild in guilds] loop of [send_birthday_message]. *)
Fixpoint send_each
    (db : Database) (user_id : Z) (name : option string) (age : option Z)
    (guilds : list Guild) : M unit :=
  match guilds with
  | [] => ret tt
  | guild :: rest =>
      match guild_get_member guild user_id with
      | None => send_each db user_id name age rest
      | Some member =>
          match get_guild_birthday_channel db (guild_id guild) with
          | None => send_each db user_id name age rest
          | Some bday_channel_id =>
              match get_channel (bot self) bday_channel_id with
              | None => send_each db user_id name age rest
              | Some bday_channel =>
                  let shown := match name with
                               | None => display_name member
                               | Some name => name
                               end in
                  let* bday_msg_template :=
                    _get_random_message (bool_decide (is_Some age)) in
                  let* bday_msg :=
                    lift (format_birthday_message
                            bday_msg_template user_id shown age) in
                  channel_send bday_channel
                    {| msg_template := bday_msg_template;
                       msg_user_id := user_id;
                       msg_name := shown;
                       msg_age := age;
                       msg_text := bday_msg |} ;;;
                  send_each db user_id name age rest
              end
          end
      end
  end.

Definition send_birthday_message (user_id : Z) (delta : Z) : M unit :=
  modify (emit (EvSleep delta)) ;;;
  let* db := _get_database in
  match get_user (bot self) user_id with
  | None => ret tt
  | Some user =>
      let guilds := mutual_guilds user in
      let name :=
        if bool_decide (get_privacy_preferred_name db user_id = Some PUBLIC)
        then get_preferred_name db user_id
        else None in
      let age :=
        if bool_decide (get_privacy_age db user_id = Some PUBLIC)
        then get_age db user_id
        else None in
      send_each db user_id name age guilds ;;;
      let* sent_at := datetime_now in
      modify (with_last_notification <[user_id := sent_at]>)
  end.

Definition get_past_upcoming_birthdays
    (past_birthdays_day_range upcoming_birthdays_day_range : Z)
  : M (list (Z * date) * list (Z * date)) :=
  let* db := _get_database in
  let* now := utc_now in
  let today := dt_date now in
  let* past_delta := timedelta_of_days past_birthdays_day_range in
  let* upcoming_delta := timedelta_of_days upcoming_birthdays_day_range in
  let* past_start := date_sub today past_delta in
  let* past_birthdays := query_birthdays_range db past_start today None in
  let* upcoming_start := date_add today (timedelta_days 1) in
  let* upcoming_stop := date_add today upcoming_delta in
  let* upcoming_birthdays :=
    query_birthdays_range db upcoming_start upcoming_stop None in
  ret (past_birthdays, upcoming_birthdays).

Definition notify_change (user_id : Z) : M unit :=
  let* db := _get_database in
  let birthday := get_birthday db user_id in
  let birthday_privacy := get_privacy_birthday db user_id in
  match birthday with
  | None => _try_cancel_task user_id
  | Some birthday =>
      if bool_decide (birthday_privacy = Some PRIVATE)
      then _try_cancel_task user_id
      else schedule_birthday user_id birthday None ;;; ret tt
  end.

(** The done callback of a task: it logs what the task raised, if
    anything; a cancelled task is not logged, and [self.tasks] is not
    touched. *)
Definition _handle_task_exception (raised : option exn) : State -> State :=
  match raised with
  | None => id
  | Some e => emit (EvLogError e)
  end.

(** What [bot.loop] does with a task it created, once: the coroutine of
    a task that is still pending runs from its call to its end, the task
    is then done, and its done callback is called; a task that is
    cancelled or done is not run. *)
Definition run_task (task : nat) : State -> State :=
  fun s =>
    match loop_tasks s !! task with
    | Some t =>
        match task_status t with
        | Pending =>
            let '(r, s') := send_birthday_message (task_user t) (task_delta t) s in
            let raised := match r with Ok _ => None | Raise e => Some e end in
            _handle_task_exception raised
              (with_loop_tasks
                 <[task := {| task_user := task_user t;
                              task_delta := task_delta t;
                              task_status := Finished raised |}]> s')
        | _ => s
        end
    | None => s
    end.

End Cog.

(** ** The registry invariant *)

(** A live task of a user: created for that user and still pending. *)
Definition is_live (user_id : Z) (t : Task) : Prop :=
  task_user t = user_id /\ task_status t = Pending.

#[global] Instance is_live_dec user_id t : Decision (is_live user_id t).
Proof. unfold is_live. apply _. Defined.

Definition live_tasks (s : State) (user_id : Z) : list Task :=
  filter (is_live user_id) (loop_tasks s).

(** Every entry of [self.tasks] is a task of that user, and every pending
    task is the entry of its user. *)
Record registry_inv (s : State) : Prop := {
  inv_registered :
    forall user_id task, tasks s !! user_id = Some task ->
      exists t, loop_tasks s !! task = Some t /\ task_user t = user_id;
  inv_live :
    forall task t, loop_tasks s !! task = Some t ->
      task_status t = Pending -> tasks s !! task_user t = Some task;
}.

(** ** The scheduling decision, in the words of the specification *)

(** The effective timezone: the stored one if publicly disclosed, else UTC. *)
Definition effective_timezone (db : Database) (user_id : Z) : TimezoneType :=
  match get_privacy_timezone db user_id with
  | Some PUBLIC => default UTC (get_timezone db user_id)
  | _ => UTC
  end.

(** The birthday's month and day name a day of [year]. *)
Definition occurs_in (birthday : date) (year : Z) : Prop :=
  1 <= date_month birthday <= 12
  /\ 1 <= date_day birthday
        <= Calendar.days_in_month year (date_month birthday).

(** The birthday's date in the year of [now]. *)
Definition birthday_this_year (birthday : date) (now : datetime) : date :=
  Calendar.ymd2ord (date_year (dt_date now))
    (date_month birthday) (date_day birthday).

(** Local midnight of that date, as an absolute instant, minus [now]. *)
Definition midnight_delta
    (tz : TimezoneType) (birthday : date) (now : datetime) : Z :=
  instant (localize tz (naive_of_date (birthday_this_year birthday now)))
  - instant now.

(** The state a call leaves when it schedules, and when it does not. *)
Definition cancelled (user_id : Z) (s : State) : State :=
  (_try_cancel_task user_id s).2.

Definition created (user_id : Z) (delta : Z) (s : State) : State :=
  (_create_birthday_task user_id delta s).2.

(** The channel a guild offers for the user's message: the user is a
    member, the guild has a birthday channel, and that channel resolves. *)
Definition eligible_channel
    (self : Birthdays) (db : Database) (user_id : Z) (guild : Guild)
  : option TextChannel :=
  match guild_get_member guild user_id with
  | None => None
  | Some _ =>
      match get_guild_birthday_channel db (guild_id guild) with
      | None => None
      | Some bday_channel_id => get_channel (bot self) bday_channel_id
      end
  end.

(** No [asyncio.sleep] among these events. *)
Definition is_sleep (e : Event) : bool :=
  match e with EvSleep _ => true | _ => false end.

#[global] Instance occurs_in_dec birthday year : Decision (occurs_in birthday year).
Proof. unfold occurs_in. apply _. Defined.

(** Computations that leave [self.tasks] and the loop's tasks alone. *)
Definition keeps_registry {A} (m : M A) : Prop :=
  forall s, tasks (m s).2 = tasks s /\ loop_tasks (m s).2 = loop_tasks s.

Create HintDb keeps.

(** Computations that add to the log, and add no sleep. *)
Definition adds_no_sleep {A} (m : M A) : Prop :=
  forall s, exists out,
    log (m s).2 = log s ++ out
    /\ forallb (fun e => negb (is_sleep e)) out = true.

(** ** Text, for the scenarios

    The methods of [str] as they act on ASCII text, and [str.format] as it
    acts on a template made of literal text, doubled braces and
    replacement fields that are plain names, which is what the templates
    of the tests and of the default configuration are. *)

Definition ascii_upper (c : ascii) : ascii :=
  let n := nat_of_ascii c in
  if (97 <=? n)%nat && (n <=? 122)%nat then ascii_of_nat (n - 32) else c.

Definition ascii_lower (c : ascii) : ascii :=
  let n := nat_of_ascii c in
  if (65 <=? n)%nat && (n <=? 90)%nat then ascii_of_nat (n + 32) else c.

Fixpoint string_map (f : ascii -> ascii) (s : string) : string :=
  match s with
  | EmptyString => EmptyString
  | String c rest => String (f c) (string_map f rest)
  end.

(** [s.upper()] and [s.capitalize()] *)
Definition upper (s : string) : string := string_map ascii_upper s.

Definition capitalize (s : string) : string :=
  match s with
  | EmptyString => EmptyString
  | String c rest => String (ascii_upper c) (string_map ascii_lower rest)
  end.

(** [str(v)] for a keyword argument. *)
Definition text_of (v : FormatArg) : string :=
  match v with
  | ArgStr s => s
  | ArgInt n => NilZero.string_of_int (Z.to_int n)
  | ArgNone => "None"
  end.

Fixpoint lookup_kwarg (kwargs : list (string * FormatArg)) (k : string)
  : option FormatArg :=
  match kwargs with
  | [] => None
  | (k', v) :: rest => if String.eqb k' k then Some v else lookup_kwarg rest k
  end.

Definition is_digit (c : ascii) : bool :=
  let n := nat_of_ascii c in (48 <=? n)%nat && (n <=? 57)%nat.

Fixpoint all_digits (s : string) : bool :=
  match s with
  | EmptyString => true
  | String c rest => is_digit c && all_digits rest
  end.

(** [str.format] with keyword arguments only.  [field] is the name read so far when
    inside a replacement field.  An empty or numeric field asks for a
    positional argument, and there is none ([IndexError]); a name that is
    no keyword is a [KeyError]; a brace that opens or closes nothing is a
    [ValueError].  A field with a conversion, a format specification, an
    attribute or an index is not covered, and refused. *)
Fixpoint format_fields
    (kwargs : list (string * FormatArg)) (template : string)
    (field : option string) : Res string :=
  match field, template with
  | None, EmptyString => Ok EmptyString
  | None, String "{" (String "{" rest) =>
      match format_fields kwargs rest None with
      | Ok text => Ok (String "{" text)
      | Raise e => Raise e
      end
  | None, String "{" rest => format_fields kwargs rest (Some EmptyString)
  | None, String "}" (String "}" rest) =>
      match format_fields kwargs rest None with
      | Ok text => Ok (String "}" text)
      | Raise e => Raise e
      end
  | None, String "}" _ => Raise ValueError
  | None, String c rest =>
      match format_fields kwargs rest None with
      | Ok text => Ok (String c text)
      | Raise e => Raise e
      end
  | Some name, EmptyString => Raise ValueError
  | Some name, String "}" rest =>
      if all_digits name then Raise IndexError
      else
        match lookup_kwarg kwargs name with
        | None => Raise KeyError
        | Some v =>
            match format_fields kwargs rest None with
            | Ok text => Ok (text_of v ++ text)%string
            | Raise e => Raise e
            end
        end
  | Some name, String c rest =>
      if existsb (Ascii.eqb c) ["{"; "!"; ":"; "."; "["]%char
      then Raise ValueError
      else format_fields kwargs rest (Some (name ++ String c EmptyString)%string)
  end.

Definition format (template : string) (kwargs : list (string * FormatArg))
  : Res string :=
  format_fields kwargs template None.

(** The pronouns the test of the cog expects ([they=they]). *)
Definition they_pronouns : Pronouns :=
  {| subjective := "they"; objective := "them"; determiner := "their";
     possessive := "theirs"; reflexive := "themself";
     to_be_conjugation := "are";
     subjective_to_be_contraction := "they're" |}.

(** ** Scenarios *)

Definition birthday_channel : TextChannel :=
  {| channel_id := 100; send_fails := false |}.

Definition main_guild : Guild :=
  {| guild_id := 10;
     guild_get_member := fun _ => Some {| display_name := "Some member" |} |}.

(** A directory in which every user has the given zone and privacy
    setting, and whose range query answers [birthdays]. *)
Definition directory
    (birthdays : list (Z * date)) (zone : option TimezoneType)
    (privacy : option PrivacyType) : Database :=
  {| get_birthday := fun u =>
       snd <$> List.find (fun p => bool_decide (p.1 = u)) birthdays;
     get_privacy_birthday := fun _ => privacy;
     get_timezone := fun _ => zone;
     get_privacy_timezone := fun _ => privacy;
     get_preferred_name := fun _ => None;
     get_privacy_preferred_name := fun _ => privacy;
     get_age := fun _ => Some 20;
     get_privacy_age := fun _ => privacy;
     get_guild_birthday_channel := fun g => if g =? 10 then Some 100 else None;
     get_birthdays_range := fun _ _ _ _ => birthdays |}.

(** A cog over a directory; users below 1000 share [main_guild] with the
    bot, the others are unknown to the gateway. *)
Definition cog_over (db : Database) : Birthdays :=
  {| bot :=
       {| get_cog_UserData := Some db;
          get_user := fun u =>
            if u <? 1000 then Some {| mutual_guilds := [main_guild] |} else None;
          get_channel := fun c =>
            if c =? 100 then Some birthday_channel else None |};
     message_templates_no_age := ["name={name} they={they} ping={ping}"%string];
     message_templates_with_age :=
       ["name={name} they={they} age={age} ping={ping}"%string] |}.

(** A host in zone [zone] whose clock always reads [w]. *)
Definition host_at (zone : TimezoneType) (w : naive) : Host :=
  {| clock := fun _ => w; localzone := zone; rand := fun _ => 0%nat;
     common_pronouns_they := they_pronouns;
     str_capitalize := capitalize; str_upper := upper;
     str_format := format |}.

(** The scenario of [test_basic]: born 2000-02-14, everything public, UTC,
    scheduling at 2020-02-13 23:45. *)
Definition basic_directory : Database :=
  directory [(1, mkdate 2000 2 14)] (Some UTC) (Some PUBLIC).
Definition basic_host : Host := host_at UTC (mknaive 2020 2 13 23 45).
Definition basic_now : datetime := localize UTC (mknaive 2020 2 13 23 45).

(** A user born on a 29th of February, listed before another user whose
    birthday is the next day; the year 2021 has no 29th of February. *)
Definition leap_directory : Database :=
  directory [(1, mkdate 2000 2 29); (2, mkdate 1990 3 1)] (Some UTC) (Some PUBLIC).
Definition leap_host : Host := host_at UTC (mknaive 2021 2 28 12 0).
Definition leap_now : datetime := localize UTC (mknaive 2021 2 28 12 0).

(** A host eight hours behind UTC, at 20:00 of its 2020-02-13. *)
Definition pacific : TimezoneType := fixed_zone (timedelta_hours (-8)).
Definition pacific_host : Host := host_at pacific (mknaive 2020 2 13 20 0).

(** ** The rest of [common/time.py] and the caller in [bios/cog.py] *)

(** A [dt.time], by its fields. *)
Record time := {
  hour : Z;
  minute : Z;
  second : Z;
  microsecond : Z;
}.

(** The time of day of a naive datetime, as a duration since midnight. *)
Definition naive_time_of_day (w : naive) : Z := w mod US_PER_DAY.

Section Callers.

Variable host : Host.

(** [dt.datetime(year, month, day, hour, minute)]: [ValueError] when the
    fields do not name a minute of the calendar. *)
Definition datetime_ymdhm (year month day hour minute : Z) : M naive :=
  if (1 <=? month) && (month <=? 12)
     && (1 <=? day) && (day <=? Calendar.days_in_month year month)
     && (0 <=? hour) && (hour <=? 23) && (0 <=? minute) && (minute <=? 59)
  then ret (naive_of_date (Calendar.ymd2ord year month day)
            + timedelta_hours hour + timedelta_minutes minute)
  else raise ValueError.

(** [sandpiper.common.time.localize_time_to_datetime] *)
Definition localize_time_to_datetime
    (time : time) (basis_tz : TimezoneType) : M datetime :=
  let* now := utc_now host in
  let now_basis := astimezone now basis_tz in
  let today := dt_date now_basis in
  let* basis_time :=
    datetime_ymdhm (date_year today) (date_month today) (date_day today)
      (hour time) (minute time) in
  ret (localize basis_tz basis_time).

(** What the completion hook of [Bios] reads from its context. *)
Record Context := {
  command_failed : bool;
  qualified_name : string;
  author_id : Z;
}.

(** [Bios.notify_birthdays_cog]; [birthdays_cog] is what
    [self.bot.get_cog('Birthdays')] answers. *)
Definition notify_birthdays_cog
    (birthdays_cog : option Birthdays) (ctx : Context) : M unit :=
  if command_failed ctx then ret tt
  else if bool_decide
            (qualified_name ctx
             ∈ ["birthday set"; "timezone set"; "privacy all";
                "privacy birthday"; "privacy timezone"]%string)
  then match birthdays_cog with
       | None => ret tt
       | Some birthdays_cog => notify_change host birthdays_cog (author_id ctx)
       end
  else ret tt.

End Callers.

(** ** Further vocabulary for the properties *)

(** The conversions agree on [count] consecutive ordinals from [n] on. *)
Fixpoint calendar_agrees_from (count : nat) (n : Z) : bool :=
  match count with
  | O => true
  | S c => calendar_agrees n && calendar_agrees_from c (n + 1)
  end.

(** The pool [_get_random_message] draws from. *)
Definition template_pool (self : Birthdays) (age : option Z) : list string :=
  if bool_decide (is_Some age)
  then message_templates_with_age self
  else message_templates_no_age self.

(** The message of a guild, as it should be: sent to the resolved birthday
    channel of that guild, in which the user is a member, accepted by that
    channel, carrying the user's id, the disclosed age, the disclosed name
    or else the member's display name, a template of the pool that goes
    with the age, and the text the formatter makes of them. *)
Definition sent_to
    (host : Host) (self : Birthdays) (db : Database) (user_id : Z)
    (name : option string) (age : option Z) (guild : Guild)
    (e : Event) : Prop :=
  exists member channel template text,
    e = EvSend (channel_id channel)
          {| msg_template := template; msg_user_id := user_id;
             msg_name := default (display_name member) name;
             msg_age := age; msg_text := text |}
    /\ guild_get_member guild user_id = Some member
    /\ eligible_channel self db user_id guild = Some channel
    /\ send_fails channel = false
    /\ template ∈ template_pool self age
    /\ format_birthday_message host template user_id
         (default (display_name member) name) age
       = Ok text.


(** A birthday is stored with the year of birth; it falls on a date when
    the month and the day agree. *)
Definition falls_on (birthday d : date) : Prop :=
  date_month birthday = date_month d /\ date_day birthday = date_day d.

(** The name and the age the sender discloses. *)
Definition disclosed_name (db : Database) (user_id : Z) : option string :=
  match get_privacy_preferred_name db user_id with
  | Some PUBLIC => get_preferred_name db user_id
  | _ => None
  end.

Definition disclosed_age (db : Database) (user_id : Z) : option Z :=
  match get_privacy_age db user_id with
  | Some PUBLIC => get_age db user_id
  | _ => None
  end.

(** A cog whose bot has no [UserData] cog loaded. *)
Definition cog_without_directory : Birthdays :=
  {| bot := {| get_cog_UserData := None;
               get_user := fun _ => None;
               get_channel := fun _ => None |};
     message_templates_no_age := [];
     message_templates_with_age := [] |}.


(** A cog like [cog_over], whose templates have a field that
    [format_birthday_message] passes no argument for. *)
Definition cog_with_unfilled_template (db : Database) : Birthdays :=
  {| bot := bot (cog_over db);
     message_templates_no_age := ["Happy birthday {nickname}!"%string];
     message_templates_with_age :=
       ["Happy birthday {nickname}, {age} today!"%string] |}.

(** * Properties *)

(** ** Time arithmetic *)

Lemma US_PER_DAY_pos : 0 < US_PER_DAY.
Proof. reflexivity. Qed.

Lemma timedelta_days_get_days (n : Z) :
  timedelta_get_days (timedelta_days n) = n.
Proof.
  unfold timedelta_get_days, timedelta_days.
  apply Z.div_mul. discriminate.
Qed.

(** Adding whole days to a date: the sum of the ordinals, when it is the
    ordinal of a date. *)
Lemma date_add_days (d n : Z) (s : State) :
  date_add d (timedelta_days n) s
  = if decide (1 <= d + n <= MAXORDINAL) then (Ok (d + n), s)
    else (Raise OverflowError, s).
Proof.
  unfold date_add. rewrite timedelta_days_get_days. cbn zeta.
  destruct (decide _) as [H|H].
  - replace (_ && _) with true; [reflexivity |].
    symmetry. apply andb_true_intro.
    split; [apply Z.ltb_lt | apply Z.leb_le]; lia.
  - destruct (_ && _) eqn:E; [| reflexivity].
    exfalso. apply H. apply andb_prop in E as [E1 E2].
    apply Z.ltb_lt in E1. apply Z.leb_le in E2. lia.
Qed.

Lemma date_sub_days (d n : Z) (s : State) :
  date_sub d (timedelta_days n) s
  = if decide (1 <= d - n <= MAXORDINAL) then (Ok (d - n), s)
    else (Raise OverflowError, s).
Proof.
  unfold date_sub. rewrite timedelta_days_get_days, date_add_days.
  replace (d + - n) with (d - n) by lia. reflexivity.
Qed.

Lemma timedelta_of_days_eq (n : Z) (s : State) :
  timedelta_of_days n s
  = if decide (-999999999 <= n <= 999999999) then (Ok (timedelta_days n), s)
    else (Raise OverflowError, s).
Proof.
  unfold timedelta_of_days.
  destruct (decide _) as [H|H].
  - replace (_ && _) with true; [reflexivity |].
    symmetry. apply andb_true_intro. split; apply Z.leb_le; lia.
  - destruct (_ && _) eqn:E; [| reflexivity].
    exfalso. apply H. apply andb_prop in E as [E1 E2].
    apply Z.leb_le in E1. apply Z.leb_le in E2. lia.
Qed.

Lemma naive_date_of_date (d : date) : naive_date (naive_of_date d) = d.
Proof.
  unfold naive_date, naive_of_date.
  rewrite Z.div_mul; [lia | discriminate].
Qed.

Lemma instant_astimezone (d : datetime) (tz : TimezoneType) :
  instant (astimezone d tz) = instant d.
Proof. unfold astimezone, instant; simpl. lia. Qed.

Lemma instant_localize (tz : TimezoneType) (w : naive) :
  instant (localize tz w) = w - tz_localize_offset tz w.
Proof. reflexivity. Qed.

Example calendar_samples :
  Calendar.ord2ymd (mkdate 2000 2 29) = (2000, 2, 29)
  /\ Calendar.ord2ymd (mkdate 2020 2 14) = (2020, 2, 14)
  /\ Calendar.ord2ymd (mkdate 2021 12 31) = (2021, 12, 31)
  /\ Calendar.ord2ymd (mkdate 2021 12 31 + 1) = (2022, 1, 1)
  /\ mkdate 1 1 1 = 1
  /\ mkdate 1970 1 1 = 719163.
Proof. vm_compute. repeat split. Qed.

(** The conversions agree on every day from 2015-01-01 to 2028-09-08. *)
Example calendar_agrees_2015_2028 :
  forallb calendar_agrees (seqZ (mkdate 2015 1 1) 5000) = true.
Proof. vm_compute. reflexivity. Qed.

(** ** The calendar conversions agree everywhere *)

Lemma calendar_agrees_from_spec (count : nat) (n : Z) :
  calendar_agrees_from count n = true ->
  forall k, 0 <= k < Z.of_nat count -> calendar_agrees (n + k) = true.
Proof.
  revert n. induction count as [|c IH]; intros n H k Hk; [lia |].
  simpl in H. apply andb_prop in H as [H0 H1].
  destruct (decide (k = 0)) as [->|Hne]; [by rewrite Z.add_0_r |].
  replace (n + k) with (n + 1 + (k - 1)) by lia.
  apply IH; [done | lia].
Qed.

(** One whole cycle of 400 years, by computation. *)
Lemma calendar_agrees_cycle :
  calendar_agrees_from (Z.to_nat 146097) 1 = true.
Proof. vm_compute. reflexivity. Qed.

Lemma is_leap_shift (y q : Z) :
  Calendar.is_leap (y + 400 * q) = Calendar.is_leap y.
Proof.
  unfold Calendar.is_leap.
  replace ((y + 400 * q) mod 4) with (y mod 4)
    by (replace (y + 400 * q) with (y + (100 * q) * 4) by lia;
        by rewrite Z_mod_plus_full).
  replace ((y + 400 * q) mod 100) with (y mod 100)
    by (replace (y + 400 * q) with (y + (4 * q) * 100) by lia;
        by rewrite Z_mod_plus_full).
  replace ((y + 400 * q) mod 400) with (y mod 400)
    by (replace (y + 400 * q) with (y + q * 400) by lia;
        by rewrite Z_mod_plus_full).
  reflexivity.
Qed.

Lemma days_before_year_shift (y q : Z) :
  Calendar.days_before_year (y + 400 * q)
  = Calendar.days_before_year y + 146097 * q.
Proof.
  unfold Calendar.days_before_year. cbn zeta.
  replace (y + 400 * q - 1) with (y - 1 + 400 * q) by lia.
  replace ((y - 1 + 400 * q) / 4) with ((y - 1) / 4 + 100 * q)
    by (replace (y - 1 + 400 * q) with (y - 1 + (100 * q) * 4) by lia;
        by rewrite Z.div_add).
  replace ((y - 1 + 400 * q) / 100) with ((y - 1) / 100 + 4 * q)
    by (replace (y - 1 + 400 * q) with (y - 1 + (4 * q) * 100) by lia;
        by rewrite Z.div_add).
  replace ((y - 1 + 400 * q) / 400) with ((y - 1) / 400 + q)
    by (replace (y - 1 + 400 * q) with (y - 1 + q * 400) by lia;
        by rewrite Z.div_add).
  lia.
Qed.

Lemma ymd2ord_shift (y m d q : Z) :
  Calendar.ymd2ord (y + 400 * q) m d = Calendar.ymd2ord y m d + 146097 * q.
Proof.
  unfold Calendar.ymd2ord, Calendar.days_before_month.
  rewrite days_before_year_shift, is_leap_shift. lia.
Qed.

Lemma days_in_month_shift (y m q : Z) :
  Calendar.days_in_month (y + 400 * q) m = Calendar.days_in_month y m.
Proof. unfold Calendar.days_in_month. by rewrite is_leap_shift. Qed.

Lemma ord2ymd_shift (n q : Z) :
  Calendar.ord2ymd (n + 146097 * q)
  = let '(y, m, d) := Calendar.ord2ymd n in (y + 400 * q, m, d).
Proof.
  unfold Calendar.ord2ymd, Calendar.DI400Y. cbn zeta.
  replace (n + 146097 * q - 1) with (n - 1 + q * 146097) by lia.
  rewrite Z.div_add, Z_mod_plus_full by lia.
  set (r := (n - 1) mod 146097).
  set (n100 := r / Calendar.DI100Y).
  set (r100 := r mod Calendar.DI100Y).
  set (n4 := r100 / Calendar.DI4Y).
  set (r4 := r100 mod Calendar.DI4Y).
  set (n1 := r4 / 365).
  set (r1 := r4 mod 365).
  destruct ((n1 =? 4) || (n100 =? 4)); [f_equal; f_equal; lia |].
  destruct (r1 <? _); f_equal; f_equal; lia.
Qed.

Lemma calendar_agrees_all (n : Z) : calendar_agrees n = true.
Proof.
  pose (q := (n - 1) / 146097). pose (k := (n - 1) mod 146097).
  assert (Hk : 0 <= k < 146097) by (apply Z.mod_pos_bound; lia).
  assert (Hn : n = (1 + k) + 146097 * q).
  { unfold q, k. pose proof (Z.div_mod (n - 1) 146097 ltac:(lia)). lia. }
  pose proof (calendar_agrees_from_spec _ _ calendar_agrees_cycle k
                ltac:(rewrite Z2Nat.id; lia)) as Hbase.
  rewrite Hn. unfold calendar_agrees in *.
  rewrite ord2ymd_shift.
  destruct (Calendar.ord2ymd (1 + k)) as [[y m] d].
  rewrite ymd2ord_shift, days_in_month_shift.
  repeat (apply andb_prop in Hbase as [Hbase ?]).
  apply Z.eqb_eq in Hbase.
  repeat (apply andb_true_intro; split); try done.
  apply Z.eqb_eq. lia.
Qed.

(** The fields of a date name that date, and name a day of the calendar. *)
Lemma date_fields (d : date) :
  Calendar.ymd2ord (date_year d) (date_month d) (date_day d) = d
  /\ 1 <= date_month d <= 12
  /\ 1 <= date_day d <= Calendar.days_in_month (date_year d) (date_month d).
Proof.
  pose proof (calendar_agrees_all d) as H.
  unfold calendar_agrees, date_year, date_month, date_day in *.
  destruct (Calendar.ord2ymd d) as [[y m] dd]. simpl.
  repeat (apply andb_prop in H as [H ?]).
  apply Z.eqb_eq in H.
  repeat match goal with X : (_ <=? _) = true |- _ => apply Z.leb_le in X end.
  lia.
Qed.

(** ** The same day of the month, a year apart *)

Lemma days_before_year_succ (y : Z) :
  Calendar.days_before_year (y + 1)
  = Calendar.days_before_year y + (if Calendar.is_leap y then 366 else 365).
Proof.
  unfold Calendar.days_before_year, Calendar.is_leap. cbn zeta.
  replace (y + 1 - 1) with y by lia.
  destruct (Z.eqb_spec (y mod 4) 0) as [H4|H4];
    destruct (Z.eqb_spec (y mod 100) 0) as [H100|H100];
    destruct (Z.eqb_spec (y mod 400) 0) as [H400|H400]; simpl;
    Z.div_mod_to_equations; lia.
Qed.

Lemma is_leap_succ (y : Z) :
  Calendar.is_leap y = true -> Calendar.is_leap (y + 1) = false.
Proof.
  unfold Calendar.is_leap. intros H. apply andb_prop in H as [H _].
  apply Z.eqb_eq in H.
  replace ((y + 1) mod 4 =? 0) with false; [reflexivity |].
  symmetry. apply Z.eqb_neq. Z.div_mod_to_equations. lia.
Qed.

(** The same month and day in the next year come at least 365 days
    later. *)
Lemma ymd2ord_succ (y m d : Z) :
  Calendar.ymd2ord y m d + 365 <= Calendar.ymd2ord (y + 1) m d.
Proof.
  unfold Calendar.ymd2ord, Calendar.days_before_month.
  rewrite days_before_year_succ.
  pose proof (is_leap_succ y) as Hnext.
  destruct (Calendar.is_leap y).
  - rewrite Hnext by done. rewrite andb_false_r. destruct (2 <? m); simpl; lia.
  - rewrite andb_false_r. destruct (_ && _); lia.
Qed.

Lemma ymd2ord_years (y m d : Z) (k : Z) :
  0 <= k -> Calendar.ymd2ord y m d + 365 * k <= Calendar.ymd2ord (y + k) m d.
Proof.
  intros Hk. pattern k. apply natlike_ind; [| | exact Hk].
  - replace (y + 0) with y by lia. lia.
  - intros j Hj IH. pose proof (ymd2ord_succ (y + j) m d).
    replace (y + Z.succ j) with (y + j + 1) by lia. lia.
Qed.

(** Two different dates with the same month and day are at least 365 days
    apart. *)
Lemma same_month_day_apart (d1 d2 : date) :
  date_month d1 = date_month d2 -> date_day d1 = date_day d2 ->
  d1 < d2 -> d1 + 365 <= d2.
Proof.
  intros Hm Hd Hlt.
  destruct (date_fields d1) as (H1 & _). destruct (date_fields d2) as (H2 & _).
  rewrite <- Hm, <- Hd in H2.
  set (m := date_month d1) in *. set (d := date_day d1) in *.
  destruct (Z.lt_trichotomy (date_year d1) (date_year d2)) as [Hy | [Hy | Hy]].
  - pose proof (ymd2ord_years (date_year d1) m d (date_year d2 - date_year d1)
                  ltac:(lia)) as H.
    replace (date_year d1 + (date_year d2 - date_year d1))
      with (date_year d2) in H by lia.
    lia.
  - rewrite Hy in H1. lia.
  - pose proof (ymd2ord_years (date_year d2) m d (date_year d1 - date_year d2)
                  ltac:(lia)) as H.
    replace (date_year d2 + (date_year d1 - date_year d2))
      with (date_year d1) in H by lia.
    lia.
Qed.

(** ** The task registry *)

Lemma cancel_not_pending (t : Task) : task_status (cancel t) <> Pending.
Proof. unfold cancel. destruct (task_status t) eqn:E; simpl; congruence. Qed.

Lemma cancel_user (t : Task) : task_user (cancel t) = task_user t.
Proof. unfold cancel. destruct (task_status t); reflexivity. Qed.

Lemma cancelled_tasks (user_id : Z) (s : State) :
  tasks (cancelled user_id s) = delete user_id (tasks s).
Proof.
  unfold cancelled, _try_cancel_task.
  destruct (tasks s !! user_id) eqn:E; simpl; [reflexivity |].
  symmetry. by apply delete_id.
Qed.

Lemma cancelled_lookup (user_id : Z) (s : State) :
  tasks (cancelled user_id s) !! user_id = None.
Proof. rewrite cancelled_tasks. apply lookup_delete_eq. Qed.

Lemma cancelled_length (user_id : Z) (s : State) :
  length (loop_tasks (cancelled user_id s)) = length (loop_tasks s).
Proof.
  unfold cancelled, _try_cancel_task.
  destruct (tasks s !! user_id); simpl; [apply length_alter | reflexivity].
Qed.

Lemma cancelled_inv (user_id : Z) (s : State) :
  registry_inv s -> registry_inv (cancelled user_id s).
Proof.
  intros [Hreg Hlive]. unfold cancelled, _try_cancel_task.
  destruct (tasks s !! user_id) as [h|] eqn:E; simpl; [| by split].
  split; simpl.
  - intros u k Hk.
    apply lookup_delete_Some in Hk as [Hne Hk].
    destruct (Hreg _ _ Hk) as (t & Ht & Hu).
    destruct (decide (h = k)) as [->|Hhk].
    + exists (cancel t). split; [| by rewrite cancel_user].
      rewrite list_lookup_alter_eq, Ht. reflexivity.
    + exists t. split; [| done]. by rewrite list_lookup_alter_ne.
  - intros k t Hk Hp.
    destruct (decide (h = k)) as [->|Hhk].
    + rewrite list_lookup_alter_eq in Hk.
      destruct (loop_tasks s !! k) as [t0|]; simplify_eq/=.
      by destruct (cancel_not_pending t0).
    + rewrite list_lookup_alter_ne in Hk by done.
      specialize (Hlive _ _ Hk Hp).
      rewrite lookup_delete_ne; [done |].
      intros ->. congruence.
Qed.

Lemma no_entry_no_live (s : State) (user_id : Z) :
  registry_inv s -> tasks s !! user_id = None -> live_tasks s user_id = [].
Proof.
  intros [_ Hlive] Hnone. unfold live_tasks.
  destruct (filter _ _) as [|t l] eqn:E; [reflexivity | exfalso].
  assert (Ht : t ∈ filter (is_live user_id) (loop_tasks s))
    by (rewrite E; left).
  apply list_elem_of_filter in Ht as [[Hu Hp] Ht].
  apply list_elem_of_lookup in Ht as [k Hk].
  specialize (Hlive _ _ Hk Hp). congruence.
Qed.

Lemma created_tasks (user_id delta : Z) (s : State) :
  tasks (created user_id delta s)
  = <[user_id := length (loop_tasks s)]> (tasks s).
Proof. reflexivity. Qed.

Lemma created_loop_tasks (user_id delta : Z) (s : State) :
  loop_tasks (created user_id delta s)
  = loop_tasks s ++ [ {| task_user := user_id; task_delta := delta;
                         task_status := Pending |} ].
Proof. reflexivity. Qed.

Lemma created_inv (user_id delta : Z) (s : State) :
  registry_inv s -> tasks s !! user_id = None ->
  registry_inv (created user_id delta s).
Proof.
  intros [Hreg Hlive] Hnone. split.
  - intros u k. rewrite created_tasks, created_loop_tasks.
    intros Hk. apply lookup_insert_Some in Hk as [[<- <-]|[Hne Hk]].
    + exists {| task_user := user_id; task_delta := delta; task_status := Pending |}.
      split; [| reflexivity].
      rewrite lookup_app_r by lia. by rewrite Nat.sub_diag.
    + destruct (Hreg _ _ Hk) as (t & Ht & Hu).
      exists t. split; [| done]. by apply lookup_app_l_Some.
  - intros k t. rewrite created_tasks, created_loop_tasks.
    intros Hk Hp. apply lookup_app_Some in Hk as [Hk|[Hge Hk]].
    + specialize (Hlive _ _ Hk Hp).
      rewrite lookup_insert_ne; [done | congruence].
    + apply list_lookup_singleton_Some in Hk as [Hz <-]. simpl.
      replace k with (length (loop_tasks s)) by lia.
      apply lookup_insert_eq.
Qed.

Lemma created_live (user_id delta : Z) (s : State) :
  registry_inv s -> tasks s !! user_id = None ->
  live_tasks (created user_id delta s) user_id
  = [ {| task_user := user_id; task_delta := delta; task_status := Pending |} ].
Proof.
  intros Hinv Hnone. unfold live_tasks.
  rewrite created_loop_tasks, filter_app.
  fold (live_tasks s user_id). rewrite (no_entry_no_live _ _ Hinv Hnone).
  simpl. by rewrite filter_cons_True by (by split).
Qed.

(** ** What [schedule_birthday] computes *)

Lemma datetime_ymd_eq (birthday : date) (year : Z) (s : State) :
  datetime_ymd year (date_month birthday) (date_day birthday) s
  = if decide (occurs_in birthday year)
    then (Ok (naive_of_date
                (Calendar.ymd2ord year (date_month birthday) (date_day birthday))),
          s)
    else (Raise ValueError, s).
Proof.
  unfold datetime_ymd, occurs_in.
  destruct (decide _) as [H|H].
  - replace (_ && _) with true; [reflexivity |].
    symmetry. repeat (apply andb_true_intro; split); apply Z.leb_le; lia.
  - destruct (_ && _) eqn:E; [| reflexivity].
    exfalso. apply H.
    repeat (apply andb_prop in E as [E ?]).
    repeat match goal with X : (_ <=? _) = true |- _ => apply Z.leb_le in X end.
    lia.
Qed.

Lemma try_cancel_task_eq (user_id : Z) (s : State) :
  _try_cancel_task user_id s = (Ok tt, cancelled user_id s).
Proof. unfold cancelled, _try_cancel_task. by destruct (tasks s !! user_id). Qed.

(** A call is its first stretch followed by its second. *)
Lemma schedule_birthday_phases host self user_id birthday now s :
  schedule_birthday host self user_id birthday now s
  = match schedule_birthday_until_await host self user_id now s with
    | (Ok (db, now'), s1) =>
        schedule_birthday_after_await db user_id birthday now' s1
    | (Raise e, s1) => (Raise e, s1)
    end.
Proof.
  unfold schedule_birthday, schedule_birthday_until_await,
    schedule_birthday_after_await, _get_database, bind.
  destruct (get_cog_UserData (bot self)) as [db|]; [| reflexivity].
  cbn [ret].
  destruct now as [now|]; cbn [ret utc_now datetime_now bind];
    rewrite try_cancel_task_eq; reflexivity.
Qed.

(** The first stretch, with the directory loaded: [now] is the one given
    or else a reading of the clock, and the user's entry is cancelled. *)
Lemma schedule_birthday_until_await_eq host self db user_id now s :
  get_cog_UserData (bot self) = Some db ->
  schedule_birthday_until_await host self user_id now s
  = match now with
    | Some now => (Ok (db, now), cancelled user_id s)
    | None =>
        (Ok (db, localize (localzone host) (clock host (clock_reads s))),
         cancelled user_id (tick_clock s))
    end.
Proof.
  intros Hdb. unfold schedule_birthday_until_await, _get_database, bind.
  rewrite Hdb. cbn [ret].
  destruct now as [now|]; cbn [ret utc_now datetime_now bind];
    by rewrite try_cancel_task_eq.
Qed.

(** The second stretch: the decision, taken on the state as it is when
    the coroutine is resumed. *)
Lemma schedule_birthday_after_await_eq db user_id birthday now s :
  schedule_birthday_after_await db user_id birthday now s
  = let tz := effective_timezone db user_id in
    let delta := midnight_delta tz birthday now in
    if decide (occurs_in birthday (date_year (dt_date now))) then
      if decide (0 <= delta < timedelta_hours 24
                 \/ (delta < 0
                     /\ dt_date (astimezone now tz)
                        = birthday_this_year birthday now))
      then (Ok true, created user_id delta s)
      else (Ok false, s)
    else (Raise ValueError, s).
Proof.
  unfold schedule_birthday_after_await, bind.
  rewrite datetime_ymd_eq.
  assert (Htz :
    match
      (if bool_decide (get_privacy_timezone db user_id = Some PUBLIC)
       then get_timezone db user_id else None)
    with None => UTC | Some timezone => timezone end
    = effective_timezone db user_id).
  { unfold effective_timezone, default.
    destruct (get_privacy_timezone db user_id) as [[]|].
    - rewrite bool_decide_eq_false_2 by congruence. reflexivity.
    - rewrite bool_decide_eq_true_2 by congruence.
      destruct (get_timezone db user_id); reflexivity.
    - rewrite bool_decide_eq_false_2 by congruence. reflexivity. }
  rewrite Htz. clear Htz. cbn zeta.
  destruct (decide (occurs_in _ _)) as [Hocc|Hocc]; [| reflexivity].
  rewrite naive_date_of_date.
  assert (Hb : Calendar.ymd2ord (date_year (dt_date now))
                 (date_month birthday) (date_day birthday)
               = birthday_this_year birthday now)
    by (unfold birthday_this_year; reflexivity).
  rewrite Hb. clear Hb.
  assert (Hd : dt_diff
                 (astimezone
                    (localize (effective_timezone db user_id)
                       (naive_of_date (birthday_this_year birthday now)))
                    UTC) now
               = midnight_delta (effective_timezone db user_id) birthday now).
  { unfold dt_diff, midnight_delta. by rewrite instant_astimezone. }
  rewrite Hd. clear Hd.
  generalize (midnight_delta (effective_timezone db user_id) birthday now).
  intros delta.
  generalize (effective_timezone db user_id). intros tz.
  destruct (decide _) as [H|H].
  - destruct ((0 <=? delta) && (delta <? timedelta_hours 24)) eqn:E1;
      [reflexivity |].
    destruct H as [H|[H1 H2]].
    + exfalso. apply andb_false_iff in E1 as [E1|E1];
        [apply Z.leb_gt in E1 | apply Z.ltb_ge in E1]; lia.
    + replace (_ && _) with true; [reflexivity |].
      symmetry. apply andb_true_intro. split;
        [by apply Z.ltb_lt | by apply Z.eqb_eq].
  - destruct ((0 <=? delta) && (delta <? timedelta_hours 24)) eqn:E1.
    + exfalso. apply H. left.
      apply andb_prop in E1 as [E1 E2].
      apply Z.leb_le in E1. apply Z.ltb_lt in E2. lia.
    + destruct ((delta <? 0) && _) eqn:E2; [| reflexivity].
      exfalso. apply H. right.
      apply andb_prop in E2 as [E2 E3].
      apply Z.ltb_lt in E2. apply Z.eqb_eq in E3. done.
Qed.

(** The call with the directory loaded and [now] given, as one equation. *)
Lemma schedule_birthday_eq host self db user_id birthday now s :
  get_cog_UserData (bot self) = Some db ->
  schedule_birthday host self user_id birthday (Some now) s
  = let tz := effective_timezone db user_id in
    let delta := midnight_delta tz birthday now in
    if decide (occurs_in birthday (date_year (dt_date now))) then
      if decide (0 <= delta < timedelta_hours 24
                 \/ (delta < 0
                     /\ dt_date (astimezone now tz)
                        = birthday_this_year birthday now))
      then (Ok true, created user_id delta (cancelled user_id s))
      else (Ok false, cancelled user_id s)
    else (Raise ValueError, cancelled user_id s).
Proof.
  intros Hdb.
  by rewrite schedule_birthday_phases,
    (schedule_birthday_until_await_eq _ _ db),
    schedule_birthday_after_await_eq.
Qed.

Lemma schedule_birthday_unloaded host self user_id birthday now s :
  get_cog_UserData (bot self) = None ->
  schedule_birthday host self user_id birthday now s = (Raise RuntimeError, s).
Proof.
  intros Hdb. unfold schedule_birthday, _get_database, bind.
  by rewrite Hdb.
Qed.

(** Without [now], the call reads the host clock once and goes on as if
    that reading had been passed. *)
Lemma schedule_birthday_reads_clock host self db user_id birthday s :
  get_cog_UserData (bot self) = Some db ->
  schedule_birthday host self user_id birthday None s
  = schedule_birthday host self user_id birthday
      (Some (localize (localzone host) (clock host (clock_reads s))))
      (tick_clock s).
Proof.
  intros Hdb. unfold schedule_birthday, _get_database, bind.
  by rewrite Hdb.
Qed.

(** ** The invariant is kept by every operation *)

Lemma registry_inv_same (s s' : State) :
  tasks s' = tasks s -> loop_tasks s' = loop_tasks s ->
  registry_inv s -> registry_inv s'.
Proof.
  intros Ht Hl [Hreg Hlive]. split; rewrite Ht, Hl; assumption.
Qed.

(** The first stretch keeps the invariant and leaves the user without an
    entry; the second keeps the invariant when it finds the user without
    an entry. *)
Lemma schedule_birthday_until_await_inv host self user_id now s :
  registry_inv s ->
  registry_inv (schedule_birthday_until_await host self user_id now s).2
  /\ forall r s1,
       schedule_birthday_until_await host self user_id now s = (Ok r, s1) ->
       tasks s1 !! user_id = None.
Proof.
  intros Hinv.
  destruct (get_cog_UserData (bot self)) as [db|] eqn:Hdb.
  - rewrite (schedule_birthday_until_await_eq _ _ db) by done.
    destruct now as [now|]; simpl.
    + split; [by apply cancelled_inv |].
      intros r s1 [= <- <-]. apply cancelled_lookup.
    + split; [apply cancelled_inv; by apply (registry_inv_same s) |].
      intros r s1 [= <- <-]. apply cancelled_lookup.
  - unfold schedule_birthday_until_await, _get_database, bind.
    rewrite Hdb. by split.
Qed.

Lemma schedule_birthday_after_await_inv db user_id birthday now s :
  registry_inv s -> tasks s !! user_id = None ->
  registry_inv (schedule_birthday_after_await db user_id birthday now s).2.
Proof.
  intros Hinv Hnone. rewrite schedule_birthday_after_await_eq. cbn zeta.
  repeat destruct (decide _); simpl; [by apply created_inv | done | done].
Qed.

Lemma schedule_birthday_given_inv host self user_id birthday now s :
  registry_inv s ->
  registry_inv (schedule_birthday host self user_id birthday (Some now) s).2.
Proof.
  intros Hinv.
  destruct (get_cog_UserData (bot self)) as [db|] eqn:Hdb.
  - rewrite (schedule_birthday_eq _ _ db) by done. cbn zeta.
    repeat destruct (decide _); simpl;
      try apply created_inv; try apply cancelled_inv;
      auto using cancelled_lookup.
  - by rewrite schedule_birthday_unloaded.
Qed.

Lemma schedule_birthday_inv host self user_id birthday now s :
  registry_inv s ->
  registry_inv (schedule_birthday host self user_id birthday now s).2.
Proof.
  intros Hinv. destruct now as [now|];
    [by apply schedule_birthday_given_inv |].
  destruct (get_cog_UserData (bot self)) as [db|] eqn:Hdb.
  - rewrite (schedule_birthday_reads_clock _ _ db) by done.
    apply schedule_birthday_given_inv.
    by apply (registry_inv_same s).
  - by rewrite schedule_birthday_unloaded.
Qed.

Lemma try_cancel_task_inv user_id s :
  registry_inv s -> registry_inv (_try_cancel_task user_id s).2.
Proof. apply cancelled_inv. Qed.

Lemma notify_change_inv host self user_id s :
  registry_inv s -> registry_inv (notify_change host self user_id s).2.
Proof.
  intros Hinv. unfold notify_change, _get_database, bind.
  destruct (get_cog_UserData (bot self)) as [db|] eqn:Hdb; [| done].
  cbn [ret].
  destruct (get_birthday db user_id) as [birthday|];
    [| by apply cancelled_inv].
  case_bool_decide; [by apply cancelled_inv |].
  pose proof (schedule_birthday_inv host self user_id birthday None s Hinv) as Hs.
  destruct (schedule_birthday host self user_id birthday None s) as [[]]; exact Hs.
Qed.

Lemma schedule_each_inv host self now birthdays count s :
  registry_inv s ->
  registry_inv (schedule_each host self now birthdays count s).2.
Proof.
  revert count s.
  induction birthdays as [|[user_id birthday] rest IH]; intros count s Hinv;
    [done |].
  simpl. unfold bind at 1.
  pose proof (schedule_birthday_inv host self user_id birthday (Some now) s Hinv)
    as H.
  destruct (schedule_birthday host self user_id birthday (Some now) s)
    as [[scheduled|e] s1]; [| exact H].
  by apply IH.
Qed.

(** One pass, with the directory loaded: a single reading of the clock
    gives [now]; when the day before and the day after the date of [now]
    are dates, the directory is asked for the birthdays from the one to
    the other, not notified since [now] minus 24 hours, and every pair it
    answers is evaluated against that same [now]; otherwise the pass
    leaves with [OverflowError] before asking. *)
Lemma schedule_todays_birthdays_eq host self db s :
  get_cog_UserData (bot self) = Some db ->
  let now := localize (localzone host) (clock host (clock_reads s)) in
  let today := dt_date now in
  let since := Some (dt_minus now (timedelta_hours 24)) in
  schedule_todays_birthdays host self s
  = if decide (1 <= today - 1 <= MAXORDINAL /\ 1 <= today + 1 <= MAXORDINAL)
    then
      schedule_each host self now
        (get_birthdays_range db (last_birthday_notification s)
           (today - 1) (today + 1) since)
        0
        (emit (EvQuery (today - 1) (today + 1) since) (tick_clock s))
    else (Raise OverflowError, tick_clock s).
Proof.
  intros Hdb. cbn zeta.
  unfold schedule_todays_birthdays, _get_database, bind at 1. rewrite Hdb.
  cbn [ret]. unfold utc_now, datetime_now, bind at 1 2. cbn [ret].
  unfold bind at 1. rewrite date_sub_days.
  destruct (decide (1 <= _ - 1 <= _)) as [Hsub|Hsub];
    [| by rewrite decide_False by tauto].
  unfold bind at 1. rewrite date_add_days.
  destruct (decide (1 <= _ + 1 <= _)) as [Hadd|Hadd];
    [| by rewrite decide_False by tauto].
  rewrite decide_True by done.
  unfold query_birthdays_range, bind, modify, gets. reflexivity.
Qed.

Lemma schedule_todays_birthdays_unloaded host self s :
  get_cog_UserData (bot self) = None ->
  schedule_todays_birthdays host self s = (Raise RuntimeError, s).
Proof.
  intros Hdb. unfold schedule_todays_birthdays, _get_database, bind.
  by rewrite Hdb.
Qed.

Lemma schedule_todays_birthdays_inv host self s :
  registry_inv s -> registry_inv (schedule_todays_birthdays host self s).2.
Proof.
  intros Hinv.
  destruct (get_cog_UserData (bot self)) as [db|] eqn:Hdb;
    [| by rewrite schedule_todays_birthdays_unloaded].
  rewrite (schedule_todays_birthdays_eq _ _ db) by done. cbn zeta.
  destruct (decide _); [| by apply (registry_inv_same s)].
  apply schedule_each_inv. by apply (registry_inv_same s).
Qed.

(** The display query, with the directory loaded: a single reading of the
    clock; the two durations are built and the start of the past range is
    computed, then the first query is made; the bounds of the upcoming
    range are computed, then the second query is made.  Whatever is out
    of the library's range ends the call with [OverflowError] where it is
    computed. *)
Lemma get_past_upcoming_birthdays_eq host self db p u s :
  get_cog_UserData (bot self) = Some db ->
  let today :=
    dt_date (localize (localzone host) (clock host (clock_reads s))) in
  let s1 := emit (EvQuery (today - p) today None) (tick_clock s) in
  let s2 := emit (EvQuery (today + 1) (today + u) None) s1 in
  get_past_upcoming_birthdays host self p u s
  = if decide (-999999999 <= p <= 999999999
               /\ -999999999 <= u <= 999999999
               /\ 1 <= today - p <= MAXORDINAL)
    then
      if decide (1 <= today + 1 <= MAXORDINAL /\ 1 <= today + u <= MAXORDINAL)
      then
        (Ok (get_birthdays_range db (last_birthday_notification s)
               (today - p) today None,
             get_birthdays_range db (last_birthday_notification s)
               (today + 1) (today + u) None),
         s2)
      else (Raise OverflowError, s1)
    else (Raise OverflowError, tick_clock s).
Proof.
  intros Hdb. cbn zeta.
  unfold get_past_upcoming_birthdays, _get_database, bind at 1. rewrite Hdb.
  cbn [ret]. unfold utc_now, datetime_now, bind at 1 2. cbn [ret].
  unfold bind at 1. rewrite timedelta_of_days_eq.
  destruct (decide (_ <= p <= _)) as [Hp|Hp];
    [| by rewrite decide_False by tauto].
  unfold bind at 1. rewrite timedelta_of_days_eq.
  destruct (decide (_ <= u <= _)) as [Hu|Hu];
    [| by rewrite decide_False by tauto].
  unfold bind at 1. rewrite date_sub_days.
  destruct (decide (1 <= _ - p <= _)) as [Hsub|Hsub];
    [| by rewrite decide_False by tauto].
  rewrite (decide_True (P := _ /\ _ /\ _)) by done.
  unfold bind at 1, query_birthdays_range at 1, bind at 1, modify at 1,
    gets at 1.
  unfold bind at 1. rewrite date_add_days.
  destruct (decide (1 <= _ + 1 <= _)) as [Hadd|Hadd];
    [| by rewrite decide_False by tauto].
  unfold bind at 1. rewrite date_add_days.
  destruct (decide (1 <= _ + u <= _)) as [Hstop|Hstop];
    [| by rewrite decide_False by tauto].
  rewrite decide_True by done.
  unfold query_birthdays_range, bind, modify, gets. reflexivity.
Qed.

Lemma get_past_upcoming_birthdays_inv host self past upcoming s :
  registry_inv s ->
  registry_inv (get_past_upcoming_birthdays host self past upcoming s).2.
Proof.
  intros Hinv.
  destruct (get_cog_UserData (bot self)) as [db|] eqn:Hdb.
  - rewrite (get_past_upcoming_birthdays_eq _ _ db) by done. cbn zeta.
    repeat destruct (decide _); by apply (registry_inv_same s).
  - unfold get_past_upcoming_birthdays, _get_database, bind.
    by rewrite Hdb.
Qed.

Lemma keeps_ret {A} (a : A) : keeps_registry (ret a).
Proof. by intros s. Qed.

Lemma keeps_raise {A} (e : exn) : keeps_registry (@raise A e).
Proof. by intros s. Qed.

Lemma keeps_bind {A B} (m : M A) (k : A -> M B) :
  keeps_registry m -> (forall a, keeps_registry (k a)) ->
  keeps_registry (bind m k).
Proof.
  intros Hm Hk s. unfold bind. specialize (Hm s).
  destruct (m s) as [[a|e] s1]; simpl in *; [| done].
  destruct (Hk a s1) as [H1 H2]. destruct Hm as [H3 H4].
  split; congruence.
Qed.

Lemma keeps_emit (e : Event) : keeps_registry (modify (emit e)).
Proof. by intros s. Qed.

Lemma keeps_gets {A} (f : State -> A) : keeps_registry (gets f).
Proof. by intros s. Qed.

Lemma keeps_record (f : gmap Z naive -> gmap Z naive) :
  keeps_registry (modify (with_last_notification f)).
Proof. by intros s. Qed.

Lemma keeps_datetime_now host : keeps_registry (datetime_now host).
Proof. by intros s. Qed.

Lemma keeps_random_choice host seq : keeps_registry (random_choice host seq).
Proof. intros s. unfold random_choice. by destruct (_ !! _). Qed.

Lemma keeps_get_database self : keeps_registry (_get_database self).
Proof.
  unfold _get_database. destruct (get_cog_UserData _);
    [apply keeps_ret | apply keeps_raise].
Qed.

Lemma keeps_lift {A} (r : Res A) : keeps_registry (lift r).
Proof. by destruct r. Qed.

#[local] Hint Resolve keeps_ret keeps_raise keeps_emit keeps_gets keeps_record
  keeps_datetime_now keeps_random_choice keeps_get_database keeps_lift : keeps.

Lemma keeps_send_each host self db user_id name age guilds :
  keeps_registry (send_each host self db user_id name age guilds).
Proof.
  induction guilds as [|guild rest IH]; simpl; [auto with keeps |].
  destruct (guild_get_member guild user_id) as [member|]; [| done].
  destruct (get_guild_birthday_channel db (guild_id guild)) as [cid|]; [| done].
  destruct (get_channel (bot self) cid) as [channel|]; [| done].
  apply keeps_bind.
  - unfold _get_random_message. destruct (bool_decide _); auto with keeps.
  - intros template. apply keeps_bind; [auto with keeps | intros text].
    apply keeps_bind; [| done].
    unfold channel_send. destruct (send_fails channel); auto with keeps.
Qed.

Lemma keeps_send_birthday_message host self user_id delta :
  keeps_registry (send_birthday_message host self user_id delta).
Proof.
  unfold send_birthday_message.
  apply keeps_bind; [auto with keeps | intros _].
  apply keeps_bind; [auto with keeps | intros db].
  destruct (get_user (bot self) user_id) as [user|]; [| auto with keeps].
  apply keeps_bind; [apply keeps_send_each | intros _].
  apply keeps_bind; auto with keeps.
Qed.

Lemma run_task_inv host self task s :
  registry_inv s -> registry_inv (run_task host self task s).
Proof.
  intros Hinv. unfold run_task.
  destruct (loop_tasks s !! task) as [t|] eqn:Ht; [| done].
  destruct (task_status t) eqn:Hst; try done.
  destruct (keeps_send_birthday_message host self (task_user t) (task_delta t) s)
    as [H1 H2].
  destruct (send_birthday_message host self (task_user t) (task_delta t) s)
    as [r s1]. simpl in H1, H2.
  set (raised := match r with Ok _ => None | Raise e => Some e end).
  set (s2 := with_loop_tasks _ s1).
  assert (Hinv2 : registry_inv s2).
  { destruct Hinv as [Hreg Hlive]. split; subst s2; simpl; rewrite ?H1, ?H2.
    - intros u k Hk. destruct (Hreg _ _ Hk) as (t' & Ht' & Hu).
      destruct (decide (task = k)) as [->|Hne].
      + eexists. split.
        * apply list_lookup_insert_eq. by eapply lookup_lt_Some.
        * simpl. congruence.
      + exists t'. split; [| done]. by rewrite list_lookup_insert_ne.
    - intros k t' Hk Hp. destruct (decide (task = k)) as [->|Hne].
      + rewrite list_lookup_insert_eq in Hk by (by eapply lookup_lt_Some).
        by simplify_eq/=.
      + rewrite list_lookup_insert_ne in Hk by done. by apply Hlive. }
  destruct raised; simpl; [| done].
  by apply (registry_inv_same s2).
Qed.

Lemma initial_state_inv : registry_inv initial_state.
Proof.
  split; simpl.
  - intros u k Hk. by rewrite lookup_empty in Hk.
  - intros k t Hk. by rewrite lookup_nil in Hk.
Qed.

(** ** What a call of [schedule_birthday] leaves behind *)

Lemma cancelled_loop_tasks (user_id : Z) (s : State) :
  loop_tasks (cancelled user_id s)
  = match tasks s !! user_id with
    | Some task => alter cancel task (loop_tasks s)
    | None => loop_tasks s
    end.
Proof.
  unfold cancelled, _try_cancel_task. by destruct (tasks s !! user_id).
Qed.

(** A call that returns has cancelled the user's entry, on a state with
    the same registry as the one it started from, and has created a task
    exactly when it returns [true]. *)
Lemma schedule_birthday_result host self user_id birthday now s r s' :
  schedule_birthday host self user_id birthday now s = (Ok r, s') ->
  exists s0 delta,
    tasks s0 = tasks s /\ loop_tasks s0 = loop_tasks s
    /\ s' = if r then created user_id delta (cancelled user_id s0)
            else cancelled user_id s0.
Proof.
  destruct (get_cog_UserData (bot self)) as [db|] eqn:Hdb;
    [| by rewrite schedule_birthday_unloaded].
  assert (Hgiven : forall n s0,
    schedule_birthday host self user_id birthday (Some n) s0 = (Ok r, s') ->
    exists delta,
      s' = if r then created user_id delta (cancelled user_id s0)
           else cancelled user_id s0).
  { intros n s0. rewrite (schedule_birthday_eq _ _ db) by done. cbn zeta.
    repeat destruct (decide _); intros [= <- <-]; eauto. }
  destruct now as [n|].
  - intros H. destruct (Hgiven _ _ H) as [delta ->]. by exists s, delta.
  - rewrite (schedule_birthday_reads_clock _ _ db) by done.
    intros H. destruct (Hgiven _ _ H) as [delta ->].
    by exists (tick_clock s), delta.
Qed.

Lemma filter_unique_length {A} (P : A -> Prop) `{!forall x, Decision (P x)}
    (l : list A) :
  (forall i j x y, l !! i = Some x -> l !! j = Some y -> P x -> P y -> i = j) ->
  (length (filter P l) <= 1)%nat.
Proof.
  induction l as [|x l IH]; intros Huniq; [simpl; lia |].
  assert (Htail : forall i j a b,
    l !! i = Some a -> l !! j = Some b -> P a -> P b -> i = j).
  { intros i j a b Hi Hj Pa Pb.
    assert (S i = S j) by (by apply (Huniq (S i) (S j) a b)). lia. }
  destruct (decide (P x)) as [Px|Px].
  - rewrite filter_cons_True by done.
    destruct (filter P l) as [|y k] eqn:F; [simpl; lia | exfalso].
    assert (Hy : y ∈ filter P l) by (rewrite F; left).
    apply list_elem_of_filter in Hy as [Py Hy].
    apply list_elem_of_lookup in Hy as [j Hj].
    by specialize (Huniq 0%nat (S j) x y eq_refl Hj Px Py).
  - rewrite filter_cons_False by done. by apply IH.
Qed.

Lemma live_at_most_one (s : State) (user_id : Z) :
  registry_inv s -> (length (live_tasks s user_id) <= 1)%nat.
Proof.
  intros [_ Hlive]. apply filter_unique_length.
  intros i j x y Hi Hj [Hux Hpx] [Huy Hpy].
  pose proof (Hlive _ _ Hi Hpx). pose proof (Hlive _ _ Hj Hpy).
  congruence.
Qed.

(** A call that returns has cancelled the task that was registered for
    the user and dropped its entry; the entry it leaves, if any, is a new
    task. *)
Lemma schedule_birthday_replaces host self user_id birthday now s r s' task :
  registry_inv s ->
  schedule_birthday host self user_id birthday now s = (Ok r, s') ->
  tasks s !! user_id = Some task ->
  (exists t, loop_tasks s' !! task = Some t /\ task_status t <> Pending)
  /\ tasks s' !! user_id = (if r then Some (length (loop_tasks s)) else None)
  /\ tasks s' !! user_id <> Some task.
Proof.
  intros Hinv Hcall Hentry.
  destruct (schedule_birthday_result _ _ _ _ _ _ _ _ Hcall)
    as (s0 & delta & Ht & Hl & ->).
  destruct (inv_registered _ Hinv _ _ Hentry) as (t & Hlk & _).
  assert (Hc : loop_tasks (cancelled user_id s0) !! task = Some (cancel t)).
  { rewrite cancelled_loop_tasks, Ht, Hentry, Hl, list_lookup_alter_eq.
    by rewrite Hlk. }
  apply lookup_lt_Some in Hlk.
  split; [| split].
  - exists (cancel t). split; [| apply cancel_not_pending].
    destruct r; [| done].
    rewrite created_loop_tasks. by apply lookup_app_l_Some.
  - destruct r; [| apply cancelled_lookup].
    rewrite created_tasks, lookup_insert_eq, cancelled_length.
    by rewrite Hl.
  - destruct r; [| by rewrite cancelled_lookup].
    rewrite created_tasks, lookup_insert_eq, cancelled_length, Hl.
    intros [= Heq]. lia.
Qed.

(** The number of live tasks a returning call leaves for the user. *)
Lemma schedule_birthday_live host self user_id birthday now s r s' :
  registry_inv s ->
  schedule_birthday host self user_id birthday now s = (Ok r, s') ->
  length (live_tasks s' user_id) = if r then 1%nat else 0%nat.
Proof.
  intros Hinv Hcall.
  destruct (schedule_birthday_result _ _ _ _ _ _ _ _ Hcall)
    as (s0 & delta & Ht & Hl & ->).
  assert (Hinv0 : registry_inv (cancelled user_id s0))
    by (apply cancelled_inv; by apply (registry_inv_same s)).
  destruct r.
  - by rewrite created_live by auto using cancelled_lookup.
  - by rewrite no_entry_no_live by auto using cancelled_lookup.
Qed.

(** With the directory loaded and [now] given, the result of a call does
    not depend on the state it starts from. *)
Lemma schedule_birthday_again host self user_id birthday now s r s' s1 :
  schedule_birthday host self user_id birthday (Some now) s = (Ok r, s') ->
  exists s2,
    schedule_birthday host self user_id birthday (Some now) s1 = (Ok r, s2).
Proof.
  intros Hcall.
  destruct (get_cog_UserData (bot self)) as [db|] eqn:Hdb;
    [| by rewrite schedule_birthday_unloaded in Hcall].
  rewrite (schedule_birthday_eq _ _ db) in Hcall by done.
  rewrite (schedule_birthday_eq _ _ db) by done.
  cbn zeta in *.
  destruct (decide (occurs_in _ _)); [| done].
  destruct (decide (_ \/ _)); injection Hcall as <- _; eauto.
Qed.

Lemma cancelled_absent (user_id : Z) (s : State) :
  tasks s !! user_id = None -> cancelled user_id s = s.
Proof. intros H. unfold cancelled, _try_cancel_task. by rewrite H. Qed.

(** The tasks of the other users go through a cancel as they are. *)
Lemma cancelled_other_task (user_id : Z) (s : State) (task : nat) (t : Task) :
  registry_inv s ->
  loop_tasks s !! task = Some t -> task_user t <> user_id ->
  loop_tasks (cancelled user_id s) !! task = Some t.
Proof.
  intros Hinv Ht Hne. rewrite cancelled_loop_tasks.
  destruct (tasks s !! user_id) as [h|] eqn:E; [| done].
  destruct (inv_registered _ Hinv _ _ E) as (t0 & Ht0 & Hu).
  rewrite list_lookup_alter_ne; [done |]. intros ->. congruence.
Qed.

Lemma cancelled_frame (user_id : Z) (s : State) :
  last_birthday_notification (cancelled user_id s)
  = last_birthday_notification s
  /\ log (cancelled user_id s) = log s
  /\ draws (cancelled user_id s) = draws s.
Proof.
  unfold cancelled, _try_cancel_task. by destruct (tasks s !! user_id).
Qed.

(** Every state a call of [schedule_birthday] can end in. *)
Lemma schedule_birthday_final host self user_id birthday now s :
  exists s0,
    tasks s0 = tasks s /\ loop_tasks s0 = loop_tasks s
    /\ last_birthday_notification s0 = last_birthday_notification s
    /\ log s0 = log s
    /\ ((schedule_birthday host self user_id birthday now s).2 = s
        \/ (schedule_birthday host self user_id birthday now s).2
           = cancelled user_id s0
        \/ exists delta,
             (schedule_birthday host self user_id birthday now s).2
             = created user_id delta (cancelled user_id s0)).
Proof.
  destruct (get_cog_UserData (bot self)) as [db|] eqn:Hdb;
    [| exists s; rewrite schedule_birthday_unloaded by done; auto 10].
  assert (Hgiven : forall n s0,
    (schedule_birthday host self user_id birthday (Some n) s0).2
    = cancelled user_id s0
    \/ exists delta,
         (schedule_birthday host self user_id birthday (Some n) s0).2
         = created user_id delta (cancelled user_id s0)).
  { intros n s0. rewrite (schedule_birthday_eq _ _ db) by done. cbn zeta.
    repeat destruct (decide _); simpl; eauto. }
  destruct now as [n|].
  - exists s. repeat (split; [done |]). right. apply Hgiven.
  - exists (tick_clock s). repeat (split; [done |]). right.
    rewrite (schedule_birthday_reads_clock _ _ db) by done. apply Hgiven.
Qed.

(** ** The registry holds at most one task per user *)

(** C2, as the code has it.  In a state that satisfies the registry
    invariant (every pending task is its user's entry), no user has more
    than one live task.  [schedule_birthday], [notify_change] and the
    cancel operation, run from call to return, keep the invariant, and so
    does each of the two stretches of [schedule_birthday], the second
    provided it finds the user without an entry, as the first left it.  A
    call of [schedule_birthday] that returns has cancelled the task
    registered for the user and removed its entry before registering a
    new one; it leaves one live task for the user when it returns [true]
    and none when it returns [false]; and a second call in succession
    with the same inputs returns the same and leaves the same number. *)
Theorem one_task_per_user host self (s : State) :
  registry_inv s ->
  (forall user_id, (length (live_tasks s user_id) <= 1)%nat)
  /\ (forall user_id birthday now,
        registry_inv (schedule_birthday host self user_id birthday now s).2)
  /\ (forall user_id, registry_inv (notify_change host self user_id s).2)
  /\ (forall user_id, registry_inv (_try_cancel_task user_id s).2)
  /\ (forall user_id now,
        registry_inv (schedule_birthday_until_await host self user_id now s).2
        /\ forall r s1,
             schedule_birthday_until_await host self user_id now s
             = (Ok r, s1) ->
             tasks s1 !! user_id = None)
  /\ (forall db user_id birthday now,
        tasks s !! user_id = None ->
        registry_inv
          (schedule_birthday_after_await db user_id birthday now s).2)
  /\ (forall user_id birthday now r s' task,
        schedule_birthday host self user_id birthday now s = (Ok r, s') ->
        tasks s !! user_id = Some task ->
        (exists t, loop_tasks s' !! task = Some t /\ task_status t <> Pending)
        /\ tasks s' !! user_id
           = (if r then Some (length (loop_tasks s)) else None)
        /\ tasks s' !! user_id <> Some task)
  /\ (forall user_id birthday now r s1,
        schedule_birthday host self user_id birthday now s = (Ok r, s1) ->
        length (live_tasks s1 user_id) = if r then 1%nat else 0%nat)
  /\ (forall user_id birthday now r s1,
        schedule_birthday host self user_id birthday (Some now) s
        = (Ok r, s1) ->
        exists s2,
          schedule_birthday host self user_id birthday (Some now) s1
          = (Ok r, s2)
          /\ length (live_tasks s2 user_id) = if r then 1%nat else 0%nat).
Proof.
  intros Hinv.
  split; [| split; [| split; [| split; [| split; [| split; [| split;
    [| split]]]]]]].
  - intros u. by apply live_at_most_one.
  - intros u b now. by apply schedule_birthday_inv.
  - intros u. by apply notify_change_inv.
  - intros u. by apply try_cancel_task_inv.
  - intros u now. by apply schedule_birthday_until_await_inv.
  - intros db u b now. by apply schedule_birthday_after_await_inv.
  - intros u b now r s' task. by apply schedule_birthday_replaces.
  - intros u b now r s1. by apply schedule_birthday_live.
  - intros u b now r s1 Hcall.
    destruct (schedule_birthday_again _ _ _ _ _ _ _ _ s1 Hcall) as [s2 Hcall2].
    exists s2. split; [done |].
    apply (schedule_birthday_live _ _ _ _ _ _ _ _) in Hcall2; [done |].
    pose proof (schedule_birthday_inv host self u b (Some now) s Hinv) as H.
    by rewrite Hcall in H.
Qed.

Lemma one_task_per_user_witness :
  registry_inv initial_state
  /\ exists s2,
       schedule_birthday basic_host (cog_over basic_directory)
         1 (mkdate 2000 2 14) (Some basic_now)
         (schedule_birthday basic_host (cog_over basic_directory)
            1 (mkdate 2000 2 14) (Some basic_now) initial_state).2
       = (Ok true, s2)
       /\ length (live_tasks s2 1) = 1%nat.
Proof.
  split; [apply initial_state_inv |].
  destruct (one_task_per_user basic_host (cog_over basic_directory)
              initial_state initial_state_inv)
    as (_ & _ & _ & _ & _ & _ & _ & _ & H).
  apply (H 1 (mkdate 2000 2 14) basic_now true).
  vm_compute. reflexivity.
Defined.

(** C2, against the claim.  Two calls for user 1 that are both suspended
    on the directory: each has run its cancel and found nothing to cancel;
    resumed one after the other, each creates its task, and the second
    overwrites the entry of the first without cancelling it.  Two tasks of
    user 1 are pending, one of them outside the registry.  And two calls
    in succession for a birthday months away both return [false] and
    leave no live task, not one. *)
Lemma interleaved_calls_leave_two_tasks :
  let self := cog_over basic_directory in
  let until_await :=
    schedule_birthday_until_await basic_host self 1 (Some basic_now) in
  let after_await :=
    schedule_birthday_after_await basic_directory 1 (mkdate 2000 2 14)
      basic_now in
  let s1 := (until_await initial_state).2 in
  let s2 := (until_await s1).2 in
  let s3 := (after_await s2).2 in
  let s4 := (after_await s3).2 in
  let pending delta :=
    {| task_user := 1; task_delta := delta; task_status := Pending |} in
  let first :=
    schedule_birthday basic_host self 1 (mkdate 2000 6 1) (Some basic_now)
      initial_state in
  let second :=
    schedule_birthday basic_host self 1 (mkdate 2000 6 1) (Some basic_now)
      first.2 in
  ((until_await initial_state).1 = Ok (basic_directory, basic_now)
   /\ (until_await s1).1 = Ok (basic_directory, basic_now)
   /\ (after_await s2).1 = Ok true
   /\ (after_await s3).1 = Ok true
   /\ live_tasks s4 1
      = [pending (timedelta_minutes 15); pending (timedelta_minutes 15)]
   /\ tasks s4 !! 1 = Some 1%nat)
  /\ (first.1 = Ok false /\ second.1 = Ok false /\ live_tasks second.2 1 = []).
Proof. vm_compute. repeat split. Qed.

(** ** The scheduling decision *)

(** For a birthday whose month and day name a day of the current year,
    with the directory loaded: the three cases of the decision. *)
Lemma schedule_birthday_cases host self db user_id birthday now s :
  get_cog_UserData (bot self) = Some db ->
  occurs_in birthday (date_year (dt_date now)) ->
  let tz := effective_timezone db user_id in
  let delta := midnight_delta tz birthday now in
  let same_day :=
    dt_date (astimezone now tz) = birthday_this_year birthday now in
  (0 <= delta < timedelta_hours 24 ->
   schedule_birthday host self user_id birthday (Some now) s
   = (Ok true, created user_id delta (cancelled user_id s)))
  /\ (delta < 0 -> same_day ->
      schedule_birthday host self user_id birthday (Some now) s
      = (Ok true, created user_id delta (cancelled user_id s)))
  /\ (~ 0 <= delta < timedelta_hours 24 -> ~ (delta < 0 /\ same_day) ->
      schedule_birthday host self user_id birthday (Some now) s
      = (Ok false, cancelled user_id s)
      /\ length (loop_tasks (cancelled user_id s)) = length (loop_tasks s)
      /\ tasks (cancelled user_id s) !! user_id = None).
Proof.
  intros Hdb Hocc. cbn zeta.
  rewrite (schedule_birthday_eq _ _ db) by done. cbn zeta.
  rewrite decide_True by done.
  split; [| split].
  - intros H. by rewrite decide_True by (by left).
  - intros H1 H2. by rewrite decide_True by (by right).
  - intros H1 H2. rewrite decide_False by (intros [?|?]; done).
    auto using cancelled_length, cancelled_lookup.
Qed.

(** C1.  A user born on a 29th of February, scheduled at noon of
    2021-02-28 UTC: the call builds [dt.datetime(2021, 2, 29)] and leaves
    with [ValueError], after cancelling whatever task the user had; it
    returns neither [true] nor [false]. *)
Theorem schedule_birthday_leap_day_raises (s : State) :
  date_month (mkdate 2000 2 29) = 2
  /\ date_day (mkdate 2000 2 29) = 29
  /\ date_year (dt_date leap_now) = 2021
  /\ schedule_birthday leap_host (cog_over leap_directory)
       1 (mkdate 2000 2 29) (Some leap_now) s
     = (Raise ValueError, cancelled 1 s).
Proof.
  repeat (split; [by vm_compute |]).
  rewrite (schedule_birthday_eq _ _ leap_directory) by reflexivity.
  cbn zeta. by rewrite decide_False by (by vm_compute; intros [_ [_ ?]]).
Qed.

(** The decision of [test_basic]: a wait of fifteen minutes. *)
Example schedule_birthday_basic :
  schedule_birthday basic_host (cog_over basic_directory)
    1 (mkdate 2000 2 14) (Some basic_now) initial_state
  = (Ok true, created 1 (timedelta_minutes 15) initial_state).
Proof. vm_compute. reflexivity. Qed.

(** ** The stored timezone of a user who keeps it private *)

Lemma effective_timezone_private (db : Database) (user_id : Z) :
  get_privacy_timezone db user_id <> Some PUBLIC ->
  effective_timezone db user_id = UTC.
Proof.
  unfold effective_timezone.
  by destruct (get_privacy_timezone db user_id) as [[]|].
Qed.

(** The call depends on the directory through the effective timezone only. *)
Lemma schedule_birthday_ext host self1 self2 db1 db2 user_id birthday now s :
  get_cog_UserData (bot self1) = Some db1 ->
  get_cog_UserData (bot self2) = Some db2 ->
  effective_timezone db1 user_id = effective_timezone db2 user_id ->
  schedule_birthday host self1 user_id birthday now s
  = schedule_birthday host self2 user_id birthday now s.
Proof.
  intros H1 H2 Htz. destruct now as [now|].
  - rewrite (schedule_birthday_eq _ _ db1), (schedule_birthday_eq _ _ db2)
      by done.
    by rewrite Htz.
  - rewrite (schedule_birthday_reads_clock _ _ db1),
      (schedule_birthday_reads_clock _ _ db2) by done.
    rewrite (schedule_birthday_eq _ _ db1), (schedule_birthday_eq _ _ db2)
      by done.
    by rewrite Htz.
Qed.

(** C3.  For a user whose timezone privacy is not PUBLIC, the result of
    [schedule_birthday] and the state it leaves (hence the wait of the
    task it registers) are the same over any two directories in which the
    flag is not PUBLIC, whatever timezone each stores for the user, absent
    or not; and they are those obtained over a directory in which the
    user's timezone is public and is UTC. *)
Theorem private_timezone_not_used
    host self1 db1 user_id birthday now s :
  get_cog_UserData (bot self1) = Some db1 ->
  get_privacy_timezone db1 user_id <> Some PUBLIC ->
  (forall self2 db2,
     get_cog_UserData (bot self2) = Some db2 ->
     get_privacy_timezone db2 user_id <> Some PUBLIC ->
     schedule_birthday host self1 user_id birthday now s
     = schedule_birthday host self2 user_id birthday now s)
  /\ (forall self2 db2,
        get_cog_UserData (bot self2) = Some db2 ->
        get_privacy_timezone db2 user_id = Some PUBLIC ->
        get_timezone db2 user_id = Some UTC ->
        schedule_birthday host self1 user_id birthday now s
        = schedule_birthday host self2 user_id birthday now s).
Proof.
  intros Hdb1 Hpriv. split; intros self2 db2 Hdb2 Hflag.
  - apply (schedule_birthday_ext _ _ _ db1 db2); [done | done |].
    by rewrite !effective_timezone_private.
  - intros Hutc. apply (schedule_birthday_ext _ _ _ db1 db2); [done | done |].
    rewrite effective_timezone_private by done.
    unfold effective_timezone. by rewrite Hflag, Hutc.
Qed.

Lemma private_timezone_not_used_witness :
  get_privacy_timezone
    (directory [(1, mkdate 2000 2 14)] (Some pacific) (Some PRIVATE)) 1
  <> Some PUBLIC
  /\ schedule_birthday basic_host
       (cog_over
          (directory [(1, mkdate 2000 2 14)] (Some pacific) (Some PRIVATE)))
       1 (mkdate 2000 2 14) (Some basic_now) initial_state
     = schedule_birthday basic_host
         (cog_over (directory [(1, mkdate 2000 2 14)] None (Some PRIVATE)))
         1 (mkdate 2000 2 14) (Some basic_now) initial_state.
Proof.
  split; [simpl; discriminate |].
  refine (proj1
            (private_timezone_not_used basic_host
               (cog_over (directory [(1, mkdate 2000 2 14)] (Some pacific)
                            (Some PRIVATE)))
               (directory [(1, mkdate 2000 2 14)] (Some pacific) (Some PRIVATE))
               1 (mkdate 2000 2 14) (Some basic_now) initial_state
               eq_refl _)
            (cog_over (directory [(1, mkdate 2000 2 14)] None (Some PRIVATE)))
            (directory [(1, mkdate 2000 2 14)] None (Some PRIVATE))
            eq_refl _);
    simpl; discriminate.
Defined.

(** When the timezone is public it is used: the same birthday at the same
    instant gets a different wait in a zone eight hours behind UTC. *)
Example public_timezone_used :
  schedule_birthday basic_host
    (cog_over (directory [(1, mkdate 2000 2 14)] (Some pacific) (Some PUBLIC)))
    1 (mkdate 2000 2 14) (Some basic_now) initial_state
  = (Ok true,
     created 1 (timedelta_hours 8 + timedelta_minutes 15) initial_state).
Proof. vm_compute. reflexivity. Qed.

(** ** The change notifier *)

(** What a cancel does to the tasks of the loop: the task the user's
    entry names is cancelled, every other task is left as it is. *)
Lemma cancelled_registered (user_id : Z) (s : State) (task : nat) (t : Task) :
  tasks s !! user_id = Some task -> loop_tasks s !! task = Some t ->
  loop_tasks (cancelled user_id s) !! task = Some (cancel t).
Proof.
  intros Hentry Ht.
  by rewrite cancelled_loop_tasks, Hentry, list_lookup_alter_eq, Ht.
Qed.

Lemma cancelled_unregistered (user_id : Z) (s : State) (task : nat) :
  tasks s !! user_id <> Some task ->
  loop_tasks (cancelled user_id s) !! task = loop_tasks s !! task.
Proof.
  intros Hentry. rewrite cancelled_loop_tasks.
  destruct (tasks s !! user_id) as [h|]; [| done].
  apply list_lookup_alter_ne. congruence.
Qed.

(** C6, as the code has it.  With the directory loaded, from any state:
    when the stored birthday is absent or its privacy is PRIVATE,
    [notify_change] returns having cancelled the task the user's entry
    names and removed the entry; it creates no task and touches no other
    task; the user is left without a live task when the state satisfies
    the registry invariant.  Otherwise it is the call of
    [schedule_birthday] on the birthday just read, which, when it
    returns, has cancelled the task that was registered and left either
    no entry or a new one. *)
Theorem notify_change_cancels_or_reschedules host self db user_id s :
  get_cog_UserData (bot self) = Some db ->
  ((get_birthday db user_id = None
    \/ get_privacy_birthday db user_id = Some PRIVATE) ->
   notify_change host self user_id s = (Ok tt, cancelled user_id s)
   /\ tasks (cancelled user_id s) !! user_id = None
   /\ length (loop_tasks (cancelled user_id s)) = length (loop_tasks s)
   /\ (forall task t,
         tasks s !! user_id = Some task -> loop_tasks s !! task = Some t ->
         loop_tasks (cancelled user_id s) !! task = Some (cancel t))
   /\ (forall task,
         tasks s !! user_id <> Some task ->
         loop_tasks (cancelled user_id s) !! task = loop_tasks s !! task)
   /\ (registry_inv s -> live_tasks (cancelled user_id s) user_id = []))
  /\ (forall birthday,
        get_birthday db user_id = Some birthday ->
        get_privacy_birthday db user_id <> Some PRIVATE ->
        notify_change host self user_id s
        = (let '(r, s') := schedule_birthday host self user_id birthday None s in
           (match r with Ok _ => Ok tt | Raise e => Raise e end, s'))
        /\ forall r s' task t,
             schedule_birthday host self user_id birthday None s = (Ok r, s') ->
             tasks s !! user_id = Some task ->
             loop_tasks s !! task = Some t ->
             loop_tasks s' !! task = Some (cancel t)
             /\ tasks s' !! user_id
                = (if r then Some (length (loop_tasks s)) else None)).
Proof.
  intros Hdb. split.
  - intros Hgone.
    split; [| split; [| split; [| split; [| split]]]].
    + unfold notify_change, _get_database, bind. rewrite Hdb. cbn [ret].
      destruct (get_birthday db user_id) as [birthday|];
        [| apply try_cancel_task_eq].
      destruct Hgone as [|Hp]; [done |].
      rewrite bool_decide_eq_true_2 by done. apply try_cancel_task_eq.
    + apply cancelled_lookup.
    + apply cancelled_length.
    + intros task t. apply cancelled_registered.
    + intros task. apply cancelled_unregistered.
    + intros Hinv.
      apply no_entry_no_live; [by apply cancelled_inv | apply cancelled_lookup].
  - intros birthday Hb Hp. split.
    + unfold notify_change, _get_database, bind at 1. rewrite Hdb. cbn [ret].
      rewrite Hb, bool_decide_eq_false_2 by done.
      unfold bind.
      by destruct (schedule_birthday host self user_id birthday None s)
        as [[r|e] s'].
    + intros r s' task t Hcall Hentry Ht.
      destruct (schedule_birthday_result _ _ _ _ _ _ _ _ Hcall)
        as (s0 & delta & Hts & Hl & ->).
      assert (Hc : loop_tasks (cancelled user_id s0) !! task = Some (cancel t))
        by (apply cancelled_registered; congruence).
      destruct r.
      * split; [rewrite created_loop_tasks; by apply lookup_app_l_Some |].
        by rewrite created_tasks, lookup_insert_eq, cancelled_length, Hl.
      * split; [done | apply cancelled_lookup].
Qed.

Lemma notify_change_cancels_or_reschedules_witness :
  let self :=
    cog_over (directory [(1, mkdate 2000 2 14)] (Some UTC) (Some PRIVATE)) in
  let s := (schedule_birthday basic_host self 1 (mkdate 2000 2 14)
              (Some basic_now) initial_state).2 in
  length (live_tasks s 1) = 1%nat
  /\ notify_change basic_host self 1 s = (Ok tt, cancelled 1 s)
  /\ live_tasks (cancelled 1 s) 1 = [].
Proof.
  cbn zeta. split; [reflexivity |].
  pose proof
    (proj1
       (notify_change_cancels_or_reschedules basic_host
          (cog_over (directory [(1, mkdate 2000 2 14)] (Some UTC) (Some PRIVATE)))
          (directory [(1, mkdate 2000 2 14)] (Some UTC) (Some PRIVATE)) 1
          (schedule_birthday basic_host
             (cog_over
                (directory [(1, mkdate 2000 2 14)] (Some UTC) (Some PRIVATE)))
             1 (mkdate 2000 2 14) (Some basic_now) initial_state).2
          eq_refl)
       (or_intror eq_refl)) as (H1 & _ & _ & _ & _ & H2).
  split; [exact H1 |].
  apply H2. apply schedule_birthday_inv, initial_state_inv.
Defined.

(** C6, against the claim.  The state two interleaved calls of
    [schedule_birthday] for user 1 leave: two pending tasks of user 1, the
    entry naming the second.  The birthday of user 1 is now private:
    [notify_change] cancels the second task, removes the entry and
    returns; the first task is still pending. *)
Lemma notify_change_leaves_unregistered_task :
  let db := directory [(1, mkdate 2000 2 14)] (Some UTC) (Some PRIVATE) in
  let self := cog_over db in
  let until_await :=
    schedule_birthday_until_await basic_host self 1 (Some basic_now) in
  let after_await :=
    schedule_birthday_after_await db 1 (mkdate 2000 2 14) basic_now in
  let s :=
    (after_await
       (after_await (until_await (until_await initial_state).2).2).2).2 in
  get_privacy_birthday db 1 = Some PRIVATE
  /\ tasks s !! 1 = Some 1%nat
  /\ length (live_tasks s 1) = 2%nat
  /\ notify_change basic_host self 1 s = (Ok tt, cancelled 1 s)
  /\ tasks (cancelled 1 s) !! 1 = None
  /\ live_tasks (cancelled 1 s) 1
     = [ {| task_user := 1; task_delta := timedelta_minutes 15;
            task_status := Pending |} ].
Proof. vm_compute. repeat split. Qed.

(** ** The daily rescan *)

Lemma cancelled_clock_reads (user_id : Z) (s : State) :
  clock_reads (cancelled user_id s) = clock_reads s.
Proof.
  unfold cancelled, _try_cancel_task. by destruct (tasks s !! user_id).
Qed.

(** With [now] given, [schedule_birthday] does not read the clock. *)
Lemma schedule_birthday_given_clock host self user_id birthday now s :
  clock_reads (schedule_birthday host self user_id birthday (Some now) s).2
  = clock_reads s.
Proof.
  destruct (get_cog_UserData (bot self)) as [db|] eqn:Hdb;
    [| by rewrite schedule_birthday_unloaded].
  rewrite (schedule_birthday_eq _ _ db) by done. cbn zeta.
  repeat destruct (decide _); simpl; apply cancelled_clock_reads.
Qed.

Lemma schedule_each_clock host self now birthdays count s :
  clock_reads (schedule_each host self now birthdays count s).2
  = clock_reads s.
Proof.
  revert count s.
  induction birthdays as [|[user_id birthday] rest IH]; intros count s;
    [done |].
  simpl. unfold bind at 1.
  pose proof (schedule_birthday_given_clock host self user_id birthday now s)
    as H.
  destruct (schedule_birthday host self user_id birthday (Some now) s)
    as [[scheduled|e] s1]; [| exact H].
  rewrite IH. exact H.
Qed.

(** A pass with the directory loaded reads the clock once, however it
    ends. *)
Lemma schedule_todays_birthdays_clock host self db s :
  get_cog_UserData (bot self) = Some db ->
  clock_reads (schedule_todays_birthdays host self s).2 = S (clock_reads s).
Proof.
  intros Hdb. rewrite (schedule_todays_birthdays_eq _ _ db) by done.
  cbn zeta. destruct (decide _); [| reflexivity].
  by rewrite schedule_each_clock.
Qed.

(** C7.  On a host eight hours behind UTC, at 20:00 of its 13th of
    February 2020, the UTC date is already the 14th; the pass asks the
    directory for the 12th to the 14th, the three days around the host's
    own date, and not for the 13th to the 15th. *)
Theorem rescan_window_follows_host_zone :
  let now := localize pacific (mknaive 2020 2 13 20 0) in
  dt_date (astimezone now UTC) = mkdate 2020 2 14
  /\ dt_date now = mkdate 2020 2 13
  /\ log (schedule_todays_birthdays pacific_host (cog_over basic_directory)
            initial_state).2
     = [EvQuery (mkdate 2020 2 12) (mkdate 2020 2 14)
          (Some (dt_minus now (timedelta_hours 24)))].
Proof. vm_compute. repeat split. Qed.

(** ** The display query *)

(** C10, as the code has it.  With the directory loaded, both ranges
    non-negative and [today], the date of the clock reading, a date of
    the library: when the two durations and the start of the past range
    are within the library's range, the directory is asked for the dates
    from [today - p] to [today]; when [today + 1] and [today + u] are
    dates too, it is asked for the dates from [today + 1] to [today + u],
    and the two answers are returned; whatever is out of range ends the
    call with [OverflowError] where it is computed.  No date lies in both
    ranges, and [today] lies in the first and not in the second.  A
    birthday falls on a date when month and day agree: for [u] below 365
    a birthday that falls on [today] falls on no date of the upcoming
    range. *)
Theorem past_upcoming_ranges host self db p u s :
  get_cog_UserData (bot self) = Some db ->
  0 <= p -> 0 <= u ->
  let today :=
    dt_date (localize (localzone host) (clock host (clock_reads s))) in
  1 <= today <= MAXORDINAL ->
  let s1 := emit (EvQuery (today - p) today None) (tick_clock s) in
  let s2 := emit (EvQuery (today + 1) (today + u) None) s1 in
  get_past_upcoming_birthdays host self p u s
  = (if decide (p <= 999999999 /\ u <= 999999999 /\ 1 <= today - p) then
       if decide (today + 1 <= MAXORDINAL /\ today + u <= MAXORDINAL) then
         (Ok (get_birthdays_range db (last_birthday_notification s)
                (today - p) today None,
              get_birthdays_range db (last_birthday_notification s)
                (today + 1) (today + u) None),
          s2)
       else (Raise OverflowError, s1)
     else (Raise OverflowError, tick_clock s))
  /\ log s1 = log s ++ [EvQuery (today - p) today None]
  /\ log s2 = log s ++ [EvQuery (today - p) today None;
                        EvQuery (today + 1) (today + u) None]
  /\ (today - p <= today <= today)
  /\ ~ (today + 1 <= today <= today + u)
  /\ (forall d : date,
        ~ ((today - p <= d <= today) /\ (today + 1 <= d <= today + u)))
  /\ (u < 365 ->
      forall birthday d,
        falls_on birthday today -> today + 1 <= d <= today + u ->
        ~ falls_on birthday d).
Proof.
  intros Hdb Hp Hu today Htoday. cbn zeta.
  split; [| split; [| split; [| split; [| split; [| split]]]]].
  - rewrite (get_past_upcoming_birthdays_eq _ _ db) by done. cbn zeta.
    fold today.
    destruct (decide (p <= _ /\ _)) as [Hfirst|Hfirst].
    + rewrite decide_True by lia.
      destruct (decide (today + 1 <= _ /\ _)) as [Hsecond|Hsecond].
      * by rewrite decide_True by lia.
      * by rewrite decide_False by lia.
    + by rewrite decide_False by lia.
  - reflexivity.
  - simpl. by rewrite <- app_assoc.
  - lia.
  - lia.
  - intros d. lia.
  - intros Hyear birthday d [Hm Hd] Hrange [Hm' Hd'].
    pose proof (same_month_day_apart today d) as Hapart.
    rewrite <- Hm, <- Hd, Hm', Hd' in Hapart.
    specialize (Hapart eq_refl eq_refl). lia.
Qed.

Lemma past_upcoming_ranges_witness :
  let today := mkdate 2020 2 13 in
  (get_past_upcoming_birthdays basic_host (cog_over basic_directory) 7 14
     initial_state).1
  = Ok ([(1, mkdate 2000 2 14)], [(1, mkdate 2000 2 14)])
  /\ log (get_past_upcoming_birthdays basic_host (cog_over basic_directory) 7 14
            initial_state).2
     = [EvQuery (mkdate 2020 2 6) today None;
        EvQuery (mkdate 2020 2 14) (mkdate 2020 2 27) None].
Proof.
  cbn zeta.
  destruct (past_upcoming_ranges basic_host (cog_over basic_directory)
              basic_directory 7 14 initial_state eq_refl
              ltac:(lia) ltac:(lia) ltac:(by vm_compute)) as (H1 & _).
  rewrite H1. split; reflexivity.
Defined.

(** C10, against the claim.  On the 28th of February 2021 with an
    upcoming range of 365 days, which the configuration allows, the
    second query runs to the 28th of February 2022: a birthday that falls
    on today falls on a date of the upcoming range as well.  And with a
    past range of 800000 days the start of the range is before the first
    date of the library: the call ends with [OverflowError] and asks the
    directory nothing. *)
Lemma upcoming_range_reaches_today_next_year :
  let run :=
    get_past_upcoming_birthdays leap_host (cog_over leap_directory) 7 365
      initial_state in
  let far :=
    get_past_upcoming_birthdays basic_host (cog_over basic_directory)
      800000 14 initial_state in
  (dt_date leap_now = mkdate 2021 2 28
   /\ log run.2
      = [EvQuery (mkdate 2021 2 21) (mkdate 2021 2 28) None;
         EvQuery (mkdate 2021 3 1) (mkdate 2022 2 28) None]
   /\ falls_on (mkdate 2000 2 28) (mkdate 2021 2 28)
   /\ falls_on (mkdate 2000 2 28) (mkdate 2022 2 28))
  /\ far = (Raise OverflowError, tick_clock initial_state).
Proof. vm_compute. repeat split. Qed.

(** ** A failure while scheduling one user of the batch *)

Lemma schedule_each_app host self now before after count s :
  schedule_each host self now (before ++ after) count s
  = match schedule_each host self now before count s with
    | (Ok count', s1) => schedule_each host self now after count' s1
    | (Raise e, s1) => (Raise e, s1)
    end.
Proof.
  revert count s.
  induction before as [|[user_id birthday] rest IH]; intros count s; [done |].
  simpl. unfold bind.
  destruct (schedule_birthday host self user_id birthday (Some now) s)
    as [[scheduled|e] s1]; [apply IH | done].
Qed.

(** With the directory loaded, a call that raises has created no task and
    has left the entries of the other users alone. *)
Lemma schedule_birthday_raises host self db user_id birthday now s e s' :
  get_cog_UserData (bot self) = Some db ->
  schedule_birthday host self user_id birthday (Some now) s = (Raise e, s') ->
  length (loop_tasks s') = length (loop_tasks s)
  /\ (forall other, other <> user_id -> tasks s' !! other = tasks s !! other)
  /\ (registry_inv s ->
      forall task t, loop_tasks s !! task = Some t ->
        task_user t <> user_id -> loop_tasks s' !! task = Some t).
Proof.
  intros Hdb. rewrite (schedule_birthday_eq _ _ db) by done. cbn zeta.
  repeat destruct (decide _); intros [= <- <-].
  split; [apply cancelled_length |]. split.
  - intros other Hne. rewrite cancelled_tasks. by apply lookup_delete_ne.
  - intros Hinv task t. by apply cancelled_other_task.
Qed.

(** C4, as the code has it.  When the call of [schedule_birthday] for one
    user of the batch raises, the exception leaves
    [schedule_todays_birthdays], and the state the pass ends in is the one
    that call left: nothing is attempted for the users after it.  The
    failing call has created no task, and the entries and the tasks of the
    users handled before it are as they left them. *)
Theorem rescan_stops_at_first_failure
    host self db s before user_id birthday after count s1 e s2 :
  get_cog_UserData (bot self) = Some db ->
  let now := localize (localzone host) (clock host (clock_reads s)) in
  let today := dt_date now in
  let since := Some (dt_minus now (timedelta_hours 24)) in
  1 <= today - 1 -> today + 1 <= MAXORDINAL ->
  get_birthdays_range db (last_birthday_notification s)
    (today - 1) (today + 1) since
  = before ++ (user_id, birthday) :: after ->
  schedule_each host self now before 0
    (emit (EvQuery (today - 1) (today + 1) since) (tick_clock s))
  = (Ok count, s1) ->
  schedule_birthday host self user_id birthday (Some now) s1 = (Raise e, s2) ->
  schedule_todays_birthdays host self s = (Raise e, s2)
  /\ length (loop_tasks s2) = length (loop_tasks s1)
  /\ (forall other, other <> user_id -> tasks s2 !! other = tasks s1 !! other)
  /\ (registry_inv s ->
      forall task t, loop_tasks s1 !! task = Some t ->
        task_user t <> user_id -> loop_tasks s2 !! task = Some t).
Proof.
  intros Hdb now today since Hlo Hhi Hbatch Hbefore Hfail.
  pose proof (schedule_todays_birthdays_eq host self db s Hdb) as Heq.
  cbn zeta in Heq. fold now today since in Heq.
  rewrite decide_True in Heq by lia.
  destruct (schedule_birthday_raises _ _ _ _ _ _ _ _ _ Hdb Hfail)
    as (Hlen & Hother & Htasks).
  split; [| split; [done | split; [done |]]].
  - rewrite Heq, Hbatch, schedule_each_app, Hbefore. simpl.
    unfold bind. by rewrite Hfail.
  - intros Hinv. apply Htasks.
    pose proof (schedule_each_inv host self now before 0
                  (emit (EvQuery (today - 1) (today + 1) since) (tick_clock s))
                  ltac:(by apply (registry_inv_same s))) as H.
    by rewrite Hbefore in H.
Qed.

Lemma rescan_stops_at_first_failure_witness :
  schedule_todays_birthdays leap_host (cog_over leap_directory) initial_state
  = (Raise ValueError,
     cancelled 1
       (emit (EvQuery (mkdate 2021 2 27) (mkdate 2021 3 1)
                (Some (dt_minus leap_now (timedelta_hours 24))))
          (tick_clock initial_state))).
Proof.
  refine (proj1
            (rescan_stops_at_first_failure leap_host (cog_over leap_directory)
               leap_directory initial_state [] 1 (mkdate 2000 2 29)
               [(2, mkdate 1990 3 1)] 0 _ ValueError _ eq_refl _ _ _ _ _));
    first [reflexivity | by vm_compute].
Defined.

(** C4, against the claim.  The directory answers a user born on a 29th of
    February and then a user whose birthday is tomorrow.  In 2021 the
    first call raises; the exception leaves the pass, the second user is
    never attempted and has no task, although scheduling that user alone
    at the same [now] succeeds. *)
Lemma rescan_aborted_by_one_user :
  let pass :=
    schedule_todays_birthdays leap_host (cog_over leap_directory) initial_state
  in
  pass.1 = Raise ValueError
  /\ tasks pass.2 !! 2 = None
  /\ loop_tasks pass.2 = []
  /\ (schedule_birthday leap_host (cog_over leap_directory)
        2 (mkdate 1990 3 1) (Some leap_now) initial_state).1
     = Ok true.
Proof. vm_compute. repeat split. Qed.

(** ** The notification sender *)

Lemma random_choice_nonempty host seq s :
  seq <> [] -> exists x, random_choice host seq s = (Ok x, tick_draws s).
Proof.
  intros Hne. unfold random_choice.
  destruct (seq !! _) as [x|] eqn:E; [by exists x | exfalso].
  apply lookup_ge_None in E.
  assert (length seq <> 0)%nat by (by destruct seq).
  pose proof (Nat.mod_upper_bound (rand host (draws s)) (length seq)). lia.
Qed.

(** The template drawn comes from the pool that goes with the age; the
    draw raises when that pool is empty, and only then. *)
Lemma random_message_cases host self age s :
  (exists template,
     _get_random_message host self (bool_decide (is_Some age)) s
     = (Ok template, tick_draws s)
     /\ template ∈ template_pool self age)
  \/ (_get_random_message host self (bool_decide (is_Some age)) s
      = (Raise IndexError, s)
      /\ template_pool self age = []).
Proof.
  unfold _get_random_message, template_pool, random_choice.
  destruct (bool_decide (is_Some age)).
  - destruct (message_templates_with_age self !! _) as [x|] eqn:E.
    + left. exists x. split; [done |]. by eapply list_elem_of_lookup_2.
    + right. split; [done |].
      destruct (message_templates_with_age self) as [|t l] eqn:El; [done |].
      exfalso. apply lookup_ge_None in E.
      pose proof (Nat.mod_upper_bound (rand host (draws s)) (length (t :: l))
                    ltac:(done)).
      lia.
  - destruct (message_templates_no_age self !! _) as [x|] eqn:E.
    + left. exists x. split; [done |]. by eapply list_elem_of_lookup_2.
    + right. split; [done |].
      destruct (message_templates_no_age self) as [|t l] eqn:El; [done |].
      exfalso. apply lookup_ge_None in E.
      pose proof (Nat.mod_upper_bound (rand host (draws s)) (length (t :: l))
                    ltac:(done)).
      lia.
Qed.

(** One turn of the guild loop. *)
Lemma send_each_cons host self db user_id name age guild rest s :
  send_each host self db user_id name age (guild :: rest) s
  = match guild_get_member guild user_id with
    | Some member =>
        match eligible_channel self db user_id guild with
        | Some channel =>
            match _get_random_message host self (bool_decide (is_Some age)) s
            with
            | (Ok template, s1) =>
                match format_birthday_message host template user_id
                        (default (display_name member) name) age with
                | Ok text =>
                    if send_fails channel then (Raise DeliveryError, s1)
                    else
                      send_each host self db user_id name age rest
                        (emit
                           (EvSend (channel_id channel)
                              {| msg_template := template;
                                 msg_user_id := user_id;
                                 msg_name := default (display_name member) name;
                                 msg_age := age;
                                 msg_text := text |})
                           s1)
                | Raise e => (Raise e, s1)
                end
            | (Raise e, s1) => (Raise e, s1)
            end
        | None => send_each host self db user_id name age rest s
        end
    | None => send_each host self db user_id name age rest s
    end.
Proof.
  unfold eligible_channel. simpl.
  destruct (guild_get_member guild user_id) as [member|]; [| reflexivity].
  destruct (get_guild_birthday_channel db (guild_id guild)) as [cid|];
    [| reflexivity].
  destruct (get_channel (bot self) cid) as [channel|]; [| reflexivity].
  unfold bind.
  destruct (_get_random_message host self (bool_decide (is_Some age)) s)
    as [[template|e] s1]; [| reflexivity].
  unfold default.
  destruct (format_birthday_message host template user_id _ age)
    as [text|e]; [| reflexivity].
  simpl. unfold channel_send.
  destruct (send_fails channel); reflexivity.
Qed.


(** The guild loop, however it ends: it adds sends to the log, one for
    each guild of a sublist of the guilds, in their order, each as it
    should be; it records nothing and reads no clock. *)
Lemma send_each_outputs host self db user_id name age guilds s :
  exists served out,
    log (send_each host self db user_id name age guilds s).2 = log s ++ out
    /\ sublist served guilds
    /\ Forall2 (sent_to host self db user_id name age) served out
    /\ last_birthday_notification
         (send_each host self db user_id name age guilds s).2
       = last_birthday_notification s
    /\ clock_reads (send_each host self db user_id name age guilds s).2
       = clock_reads s.
Proof.
  revert s. induction guilds as [|guild rest IH]; intros s.
  { exists [], []. simpl. rewrite app_nil_r.
    split; [done |]. split; [constructor |]. split; [constructor | done]. }
  assert (Hnothing : forall s1,
    log s1 = log s ->
    last_birthday_notification s1 = last_birthday_notification s ->
    clock_reads s1 = clock_reads s ->
    exists served out,
      log s1 = log s ++ out
      /\ sublist served (guild :: rest)
      /\ Forall2 (sent_to host self db user_id name age) served out
      /\ last_birthday_notification s1 = last_birthday_notification s
      /\ clock_reads s1 = clock_reads s).
  { intros s1 Hlog Hlast Hclock. exists [], []. rewrite app_nil_r.
    split; [done |]. split; [apply sublist_nil_l |].
    split; [constructor | done]. }
  assert (Hskip : exists served out,
    log (send_each host self db user_id name age rest s).2 = log s ++ out
    /\ sublist served (guild :: rest)
    /\ Forall2 (sent_to host self db user_id name age) served out
    /\ last_birthday_notification
         (send_each host self db user_id name age rest s).2
       = last_birthday_notification s
    /\ clock_reads (send_each host self db user_id name age rest s).2
       = clock_reads s).
  { destruct (IH s) as (served & out & H1 & H2 & H3 & H4 & H5).
    exists served, out. repeat split; try done. by apply sublist_cons. }
  rewrite send_each_cons.
  destruct (guild_get_member guild user_id) as [member|] eqn:Hmember;
    [| exact Hskip].
  destruct (eligible_channel self db user_id guild) as [channel|] eqn:Hel;
    [| exact Hskip].
  destruct (random_message_cases host self age s)
    as [(template & -> & Hpool) | [-> _]]; [| by apply Hnothing].
  destruct (format_birthday_message host template user_id _ age)
    as [text|e] eqn:Hformat; [| by apply Hnothing].
  destruct (send_fails channel) eqn:Hfails; [by apply Hnothing |].
  match goal with |- context [send_each _ _ _ _ _ _ rest ?st] =>
    destruct (IH st) as (served & out & H1 & H2 & H3 & H4 & H5)
  end.
  exists (guild :: served). eexists (_ :: out).
  rewrite H1, H4, H5. simpl.
  split; [by rewrite <- app_assoc |].
  split; [by apply sublist_skip |].
  split; [| done].
  constructor; [| done].
  by exists member, channel, template, text.
Qed.


Lemma disclosed_name_eq (db : Database) (user_id : Z) :
  (if bool_decide (get_privacy_preferred_name db user_id = Some PUBLIC)
   then get_preferred_name db user_id else None)
  = disclosed_name db user_id.
Proof.
  unfold disclosed_name.
  by destruct (get_privacy_preferred_name db user_id) as [[]|].
Qed.

Lemma disclosed_age_eq (db : Database) (user_id : Z) :
  (if bool_decide (get_privacy_age db user_id = Some PUBLIC)
   then get_age db user_id else None)
  = disclosed_age db user_id.
Proof.
  unfold disclosed_age.
  by destruct (get_privacy_age db user_id) as [[]|].
Qed.

(** The sender with the directory loaded, as one equation. *)
Lemma send_birthday_message_eq host self db user_id delta s :
  get_cog_UserData (bot self) = Some db ->
  send_birthday_message host self user_id delta s
  = match get_user (bot self) user_id with
    | None => (Ok tt, emit (EvSleep delta) s)
    | Some user =>
        match send_each host self db user_id (disclosed_name db user_id)
                (disclosed_age db user_id) (mutual_guilds user)
                (emit (EvSleep delta) s) with
        | (Ok _, s1) =>
            (Ok tt,
             with_last_notification <[user_id := clock host (clock_reads s1)]>
               (tick_clock s1))
        | (Raise e, s1) => (Raise e, s1)
        end
    end.
Proof.
  intros Hdb.
  unfold send_birthday_message, _get_database, bind, modify.
  rewrite Hdb. cbn [ret].
  destruct (get_user (bot self) user_id) as [user|]; [| done].
  rewrite disclosed_name_eq, disclosed_age_eq. cbn zeta.
  by destruct (send_each _ _ _ _ _ _ _ _) as [[[]|e] s1].
Qed.

(** The sender with the directory loaded, however it ends: after its
    sleep it sends one message for each guild of a sublist of the user's
    guilds; when it raises it has recorded nothing and read no clock; when
    it returns with the user resolved it has recorded the reading of the
    clock. *)
Lemma sender_outputs host self db user_id delta s :
  get_cog_UserData (bot self) = Some db ->
  exists served out,
    log (send_birthday_message host self user_id delta s).2
    = log s ++ EvSleep delta :: out
    /\ sublist served
         (match get_user (bot self) user_id with
          | None => []
          | Some user => mutual_guilds user
          end)
    /\ Forall2 (sent_to host self db user_id (disclosed_name db user_id)
                  (disclosed_age db user_id)) served out
    /\ (forall e s',
          send_birthday_message host self user_id delta s = (Raise e, s') ->
          last_birthday_notification s' = last_birthday_notification s
          /\ clock_reads s' = clock_reads s)
    /\ (forall r s',
          send_birthday_message host self user_id delta s = (Ok r, s') ->
          last_birthday_notification s'
          = match get_user (bot self) user_id with
            | None => last_birthday_notification s
            | Some _ =>
                <[user_id := clock host (clock_reads s)]>
                  (last_birthday_notification s)
            end).
Proof.
  intros Hdb. rewrite (send_birthday_message_eq _ _ db) by done.
  destruct (get_user (bot self) user_id) as [user|].
  2:{ exists [], []. split; [done |]. split; [constructor |].
      split; [constructor |]. split; [done |]. by intros r s' [= _ <-]. }
  match goal with |- context [send_each ?h ?sf ?d ?u ?n ?a ?g ?st] =>
    destruct (send_each_outputs h sf d u n a g st)
      as (served & out & H1 & H2 & H3 & H4 & H5);
    destruct (send_each h sf d u n a g st) as [[[]|e] s1]
  end; simpl in *; exists served, out.
  - split; [by rewrite H1, <- app_assoc |].
    split; [done |]. split; [done |]. split; [done |].
    intros r s' [= _ <-]. simpl. by rewrite H4, H5.
  - split; [by rewrite H1, <- app_assoc |].
    split; [done |]. split; [done |].
    split; [by intros e' s' [= _ <-] | done].
Qed.




(** The message of [test_basic], as the channel receives it. *)
Example sender_sends_formatted_text :
  log (send_birthday_message basic_host (cog_over basic_directory)
         1 0 initial_state).2
  = [EvSleep 0;
     EvSend 100
       {| msg_template := "name={name} they={they} age={age} ping={ping}";
          msg_user_id := 1; msg_name := "Some member"; msg_age := Some 20;
          msg_text := "name=Some member they=they age=20 ping=<@1>" |}].
Proof. vm_compute. reflexivity. Qed.

(** A template with a field the formatter is given no argument for: the
    sender leaves with [KeyError] after drawing the template, and records
    nothing. *)
Example sender_stopped_by_template :
  send_birthday_message basic_host (cog_with_unfilled_template basic_directory)
    1 0 initial_state
  = (Raise KeyError, tick_draws (emit (EvSleep 0) initial_state)).
Proof. vm_compute. reflexivity. Qed.

(** ** The argument of the sleep *)

Lemma adds_no_sleep_quiet {A} (m : M A) :
  (forall s, log (m s).2 = log s) -> adds_no_sleep m.
Proof. intros H s. exists []. by rewrite H, app_nil_r. Qed.

Lemma adds_no_sleep_bind {A B} (m : M A) (k : A -> M B) :
  adds_no_sleep m -> (forall a, adds_no_sleep (k a)) ->
  adds_no_sleep (bind m k).
Proof.
  intros Hm Hk s. unfold bind. destruct (Hm s) as (out1 & H1 & N1).
  destruct (m s) as [[a|e] s1]; simpl in *; [| by exists out1].
  destruct (Hk a s1) as (out2 & H2 & N2).
  exists (out1 ++ out2). rewrite H2, H1, app_assoc. split; [done |].
  rewrite forallb_app. by rewrite N1, N2.
Qed.

Lemma adds_no_sleep_random_message host self age :
  adds_no_sleep (_get_random_message host self age).
Proof.
  apply adds_no_sleep_quiet. intros s.
  unfold _get_random_message, random_choice.
  destruct age; by destruct (_ !! _).
Qed.

Lemma adds_no_sleep_channel_send channel msg :
  adds_no_sleep (channel_send channel msg).
Proof.
  intros s. unfold channel_send. destruct (send_fails channel).
  - exists []. by rewrite app_nil_r.
  - by exists [EvSend (channel_id channel) msg].
Qed.

Lemma adds_no_sleep_send_each host self db user_id name age guilds :
  adds_no_sleep (send_each host self db user_id name age guilds).
Proof.
  induction guilds as [|guild rest IH]; simpl;
    [by apply adds_no_sleep_quiet |].
  destruct (guild_get_member guild user_id) as [member|]; [| done].
  destruct (get_guild_birthday_channel db (guild_id guild)) as [cid|]; [| done].
  destruct (get_channel (bot self) cid) as [channel|]; [| done].
  apply adds_no_sleep_bind; [apply adds_no_sleep_random_message |].
  intros template.
  apply adds_no_sleep_bind;
    [apply adds_no_sleep_quiet; intros s; by destruct (format_birthday_message _ _ _ _ _) |].
  intros text.
  apply adds_no_sleep_bind; [apply adds_no_sleep_channel_send | done].
Qed.

(** C8, as the code has it.  Whatever [delta] is, the sender's first act is
    one call of [asyncio.sleep] with [delta] itself, and it sleeps no more;
    that argument is [max(delta, 0)] exactly when [delta] is not
    negative. *)
Theorem sleep_argument_is_delta host self user_id delta s :
  exists rest,
    log (send_birthday_message host self user_id delta s).2
    = log s ++ EvSleep delta :: rest
    /\ forallb (fun e => negb (is_sleep e)) rest = true
    /\ (delta = Z.max delta 0 <-> 0 <= delta).
Proof.
  pose (after_sleep :=
    let* db := _get_database self in
    match get_user (bot self) user_id with
    | None => ret tt
    | Some user =>
        let guilds := mutual_guilds user in
        let name :=
          if bool_decide (get_privacy_preferred_name db user_id = Some PUBLIC)
          then get_preferred_name db user_id
          else None in
        let age :=
          if bool_decide (get_privacy_age db user_id = Some PUBLIC)
          then get_age db user_id
          else None in
        send_each host self db user_id name age guilds ;;;
        let* sent_at := datetime_now host in
        modify (with_last_notification <[user_id := sent_at]>)
    end).
  assert (Hrest : adds_no_sleep after_sleep).
  { apply adds_no_sleep_bind.
    - apply adds_no_sleep_quiet. intros s0. unfold _get_database.
      by destruct (get_cog_UserData _).
    - intros db. destruct (get_user (bot self) user_id) as [user|];
        [| by apply adds_no_sleep_quiet].
      apply adds_no_sleep_bind; [apply adds_no_sleep_send_each | intros _].
      apply adds_no_sleep_bind;
        [by apply adds_no_sleep_quiet | intros w; by apply adds_no_sleep_quiet]. }
  destruct (Hrest (emit (EvSleep delta) s)) as (rest & Hlog & Hns).
  exists rest. split; [| split; [done | lia]].
  change (send_birthday_message host self user_id delta s)
    with (after_sleep (emit (EvSleep delta) s)).
  rewrite Hlog. simpl. by rewrite <- app_assoc.
Qed.

(** C8, against the claim.  The already-past case with a delta of minus one
    second: [asyncio.sleep] is called with minus one second, which is not
    [max(delta, 0)]. *)
Lemma negative_delta_reaches_sleep :
  let delta := timedelta_seconds (-1) in
  head (log (send_birthday_message basic_host (cog_over basic_directory)
               1 delta initial_state).2)
  = Some (EvSleep delta)
  /\ delta < 0
  /\ EvSleep delta <> EvSleep (Z.max delta 0).
Proof. vm_compute. repeat split; discriminate. Qed.

(** ** A task that has run to its end *)

(** C9, as the code has it.  When the loop runs a pending task to its end,
    [self.tasks] is left as it was: the user's entry still names the
    task, now finished; the entry goes away with the next cancel for that
    user, which [schedule_birthday] and [notify_change] both begin with. *)
Theorem finished_task_stays_registered host self task t s :
  registry_inv s ->
  loop_tasks s !! task = Some t ->
  task_status t = Pending ->
  let s' := run_task host self task s in
  tasks s' = tasks s
  /\ tasks s' !! task_user t = Some task
  /\ (exists raised,
        loop_tasks s' !! task
        = Some {| task_user := task_user t; task_delta := task_delta t;
                  task_status := Finished raised |})
  /\ tasks (cancelled (task_user t) s') !! task_user t = None.
Proof.
  intros Hinv Ht Hp. cbn zeta.
  pose proof (inv_live _ Hinv _ _ Ht Hp) as Hentry.
  unfold run_task. rewrite Ht, Hp.
  destruct (keeps_send_birthday_message host self (task_user t) (task_delta t) s)
    as [H1 H2].
  destruct (send_birthday_message host self (task_user t) (task_delta t) s)
    as [r s1]. simpl in H1, H2.
  set (raised := match r with Ok _ => None | Raise e => Some e end).
  assert (Hsame : forall s0,
    tasks (_handle_task_exception raised s0) = tasks s0
    /\ loop_tasks (_handle_task_exception raised s0) = loop_tasks s0)
    by (by destruct raised).
  split; [| split; [| split]].
  - by rewrite (proj1 (Hsame _)).
  - rewrite (proj1 (Hsame _)). simpl. by rewrite H1.
  - exists raised. rewrite (proj2 (Hsame _)). simpl. rewrite H2.
    apply list_lookup_insert_eq. by eapply lookup_lt_Some.
  - apply cancelled_lookup.
Qed.

Lemma finished_task_stays_registered_witness :
  let s := (schedule_todays_birthdays basic_host (cog_over basic_directory)
              initial_state).2 in
  let s' := run_task basic_host (cog_over basic_directory) 0 s in
  tasks s' !! 1 = Some 0%nat
  /\ tasks (cancelled 1 s') !! 1 = None.
Proof.
  cbn zeta.
  destruct (finished_task_stays_registered basic_host (cog_over basic_directory)
              0 {| task_user := 1; task_delta := timedelta_minutes 15;
                   task_status := Pending |}
              (schedule_todays_birthdays basic_host (cog_over basic_directory)
                 initial_state).2)
    as (_ & H1 & _ & H2).
  - apply schedule_todays_birthdays_inv, initial_state_inv.
  - reflexivity.
  - reflexivity.
  - exact (conj H1 H2).
Defined.

(** C9, against the claim.  The scenario of [test_basic]: the pass
    schedules the task of user 1, the loop runs it to its end, the message
    is sent and the notification time recorded; the registry still holds
    the entry of user 1, naming the finished task. *)
Lemma finished_task_still_in_registry :
  let s := (schedule_todays_birthdays basic_host (cog_over basic_directory)
              initial_state).2 in
  let s' := run_task basic_host (cog_over basic_directory) 0 s in
  tasks s' !! 1 = Some 0%nat
  /\ loop_tasks s' !! 0%nat
     = Some {| task_user := 1; task_delta := timedelta_minutes 15;
               task_status := Finished None |}
  /\ last_birthday_notification s' !! 1 = Some (mknaive 2020 2 13 23 45).
Proof. vm_compute. repeat split. Qed.

(** * Further properties of the code *)

(** ** Cancelling *)

(** X1.  [_try_cancel_task] never raises.  For a user without an entry it
    leaves the state as it is, so that cancelling twice is cancelling
    once; it removes the user's entry and no other; and, in a state that
    satisfies the registry invariant, the task it cancels is a task of
    that user: every task of another user keeps its status. *)
Theorem try_cancel_task_only_that_user (user_id : Z) (s : State) :
  registry_inv s ->
  (exists s', _try_cancel_task user_id s = (Ok tt, s')
     /\ _try_cancel_task user_id s' = (Ok tt, s')
     /\ tasks s' !! user_id = None
     /\ (forall other, other <> user_id -> tasks s' !! other = tasks s !! other)
     /\ (forall task t, loop_tasks s !! task = Some t ->
           task_user t <> user_id -> loop_tasks s' !! task = Some t)
     /\ length (loop_tasks s') = length (loop_tasks s))
  /\ (tasks s !! user_id = None -> _try_cancel_task user_id s = (Ok tt, s)).
Proof.
  intros Hinv. split.
  - exists (cancelled user_id s).
    split; [apply try_cancel_task_eq |].
    split; [by rewrite try_cancel_task_eq,
                 (cancelled_absent _ _ (cancelled_lookup user_id s)) |].
    split; [apply cancelled_lookup |].
    split; [intros other Hne; rewrite cancelled_tasks;
            by apply lookup_delete_ne |].
    split; [intros task t; by apply cancelled_other_task |].
    apply cancelled_length.
  - intros H. by rewrite try_cancel_task_eq, cancelled_absent.
Qed.

Lemma try_cancel_task_only_that_user_witness :
  let s := (schedule_birthday basic_host (cog_over basic_directory)
              1 (mkdate 2000 2 14) (Some basic_now) initial_state).2 in
  exists s',
    _try_cancel_task 1 s = (Ok tt, s')
    /\ _try_cancel_task 1 s' = (Ok tt, s')
    /\ tasks s' !! 1 = None.
Proof.
  cbn zeta.
  destruct (proj1 (try_cancel_task_only_that_user 1
              (schedule_birthday basic_host (cog_over basic_directory)
                 1 (mkdate 2000 2 14) (Some basic_now) initial_state).2
              (schedule_birthday_inv _ _ _ _ _ _ initial_state_inv)))
    as (s' & H1 & H2 & H3 & _).
  exists s'. repeat split; assumption.
Defined.

(** ** One user at a time *)

(** X2.  In a state that satisfies the registry invariant, a call of
    [schedule_birthday] for one user, however it ends, leaves the registry
    entry of every other user as it was, leaves every task of another
    user as it was, records no notification time and adds nothing to the
    trace: it calls neither [asyncio.sleep] nor a channel's [send] nor
    the range query, and writes nothing to the error log. *)
Theorem schedule_birthday_only_that_user host self user_id birthday now s :
  registry_inv s ->
  let s' := (schedule_birthday host self user_id birthday now s).2 in
  (forall other, other <> user_id -> tasks s' !! other = tasks s !! other)
  /\ (forall task t, loop_tasks s !! task = Some t ->
        task_user t <> user_id -> loop_tasks s' !! task = Some t)
  /\ last_birthday_notification s' = last_birthday_notification s
  /\ log s' = log s.
Proof.
  intros Hinv. cbn zeta.
  destruct (schedule_birthday_final host self user_id birthday now s)
    as (s0 & Ht & Hl & Hn & Hlog & Hcases).
  assert (Hinv0 : registry_inv s0) by (by apply (registry_inv_same s)).
  destruct (cancelled_frame user_id s0) as (Hcn & Hclog & _).
  assert (Hct : forall other, other <> user_id ->
            tasks (cancelled user_id s0) !! other = tasks s !! other).
  { intros other Hne. rewrite cancelled_tasks, lookup_delete_ne by done.
    by rewrite Ht. }
  assert (Hcl : forall task t, loop_tasks s !! task = Some t ->
            task_user t <> user_id ->
            loop_tasks (cancelled user_id s0) !! task = Some t).
  { intros task t Hlk Hne. apply cancelled_other_task; [done | | done].
    by rewrite Hl. }
  destruct Hcases as [-> | [-> | [delta ->]]].
  - done.
  - repeat split; [done | done | congruence | congruence].
  - repeat split.
    + intros other Hne. rewrite created_tasks, lookup_insert_ne by done.
      by apply Hct.
    + intros task t Hlk Hne. rewrite created_loop_tasks.
      apply lookup_app_l_Some. by apply Hcl.
    + simpl. congruence.
    + simpl. congruence.
Qed.

Lemma schedule_birthday_only_that_user_witness :
  let s := (schedule_birthday basic_host (cog_over basic_directory)
              1 (mkdate 2000 2 14) (Some basic_now) initial_state).2 in
  let s' := (schedule_birthday basic_host (cog_over basic_directory)
               2 (mkdate 2000 2 14) (Some basic_now) s).2 in
  tasks s' !! 1 = tasks s !! 1 /\ log s' = log s.
Proof.
  cbn zeta.
  destruct (schedule_birthday_only_that_user basic_host
              (cog_over basic_directory) 2 (mkdate 2000 2 14) (Some basic_now)
              (schedule_birthday basic_host (cog_over basic_directory)
                 1 (mkdate 2000 2 14) (Some basic_now) initial_state).2
              (schedule_birthday_inv _ _ _ _ _ _ initial_state_inv))
    as (H1 & _ & _ & H4).
  split; [apply H1; discriminate | exact H4].
Defined.

(** ** The wait of a scheduled task *)

Lemma day_is_24_hours : timedelta_hours 24 = US_PER_DAY.
Proof. reflexivity. Qed.

(** The wall clock of a datetime lies within its calendar day. *)
Lemma naive_date_bounds (w : naive) :
  (naive_date w - 1) * US_PER_DAY <= w < naive_date w * US_PER_DAY.
Proof.
  unfold naive_date. pose proof US_PER_DAY_pos.
  pose proof (Z.mul_div_le w US_PER_DAY ltac:(lia)).
  pose proof (Z.mul_succ_div_gt w US_PER_DAY ltac:(lia)).
  lia.
Qed.

(** In a zone of fixed offset, the wait to the local midnight of the date
    the zone is in is not positive and is shorter than a day. *)
Lemma midnight_of_local_date (off : Z) (now : datetime) (d : date) :
  dt_date (astimezone now (fixed_zone off)) = d ->
  - US_PER_DAY
  < instant (localize (fixed_zone off) (naive_of_date d)) - instant now
  <= 0.
Proof.
  intros <-. unfold dt_date.
  pose proof (naive_date_bounds (dt_wall (astimezone now (fixed_zone off)))) as H.
  unfold astimezone, localize, instant, naive_of_date in *. simpl in *.
  lia.
Qed.

(** X3.  When [schedule_birthday] returns [true], the user's entry names a
    new pending task whose wait is the time from [now] to the local
    midnight of the birthday in the current year; that wait is below 24
    hours, and, when the effective timezone has a fixed offset, above
    minus 24 hours. *)
Theorem scheduled_wait_bounds host self db user_id birthday now s s' :
  get_cog_UserData (bot self) = Some db ->
  schedule_birthday host self user_id birthday (Some now) s = (Ok true, s') ->
  let delta := midnight_delta (effective_timezone db user_id) birthday now in
  tasks s' !! user_id = Some (length (loop_tasks s))
  /\ loop_tasks s' !! length (loop_tasks s)
     = Some {| task_user := user_id; task_delta := delta;
               task_status := Pending |}
  /\ delta < timedelta_hours 24
  /\ (forall off, effective_timezone db user_id = fixed_zone off ->
        - timedelta_hours 24 < delta).
Proof.
  intros Hdb. rewrite (schedule_birthday_eq _ _ db) by done. cbn zeta.
  destruct (decide (occurs_in _ _)); [| done].
  destruct (decide (_ \/ _)) as [Hcase|]; [| done].
  intros [= <-].
  split; [| split; [| split]].
  - by rewrite created_tasks, lookup_insert_eq, cancelled_length.
  - rewrite created_loop_tasks, lookup_app_r by (rewrite cancelled_length; lia).
    by rewrite cancelled_length, Nat.sub_diag.
  - pose proof US_PER_DAY_pos. rewrite day_is_24_hours in *. lia.
  - intros off Hoff. rewrite Hoff in *. rewrite day_is_24_hours in *.
    pose proof US_PER_DAY_pos.
    destruct Hcase as [?|[_ Hday]]; [lia |].
    apply midnight_of_local_date in Hday.
    unfold midnight_delta. lia.
Qed.

Lemma scheduled_wait_bounds_witness :
  let s' := (schedule_birthday basic_host (cog_over basic_directory)
               1 (mkdate 2000 2 14) (Some basic_now) initial_state).2 in
  loop_tasks s' !! 0%nat
  = Some {| task_user := 1; task_delta := timedelta_minutes 15;
            task_status := Pending |}
  /\ timedelta_minutes 15 < timedelta_hours 24.
Proof.
  cbn zeta.
  destruct (scheduled_wait_bounds basic_host (cog_over basic_directory)
              basic_directory 1 (mkdate 2000 2 14) basic_now initial_state
              (schedule_birthday basic_host (cog_over basic_directory)
                 1 (mkdate 2000 2 14) (Some basic_now) initial_state).2
              eq_refl ltac:(vm_compute; reflexivity))
    as (_ & H2 & H3 & _).
  split; [exact H2 | exact H3].
Defined.

(** ** The stored year *)

(** X8.  [schedule_birthday] reads the month and the day of the birthday
    and nothing else: two birthdays with the same month and day, whatever
    their years, give the same result and the same state. *)
Theorem stored_year_not_used host self user_id birthday1 birthday2 now s :
  date_month birthday1 = date_month birthday2 ->
  date_day birthday1 = date_day birthday2 ->
  schedule_birthday host self user_id birthday1 now s
  = schedule_birthday host self user_id birthday2 now s.
Proof.
  intros Hm Hd. unfold schedule_birthday. by rewrite Hm, Hd.
Qed.

Lemma stored_year_not_used_witness :
  schedule_birthday basic_host (cog_over basic_directory)
    1 (mkdate 2000 2 14) (Some basic_now) initial_state
  = schedule_birthday basic_host (cog_over basic_directory)
      1 (mkdate 1 2 14) (Some basic_now) initial_state.
Proof.
  apply (stored_year_not_used basic_host (cog_over basic_directory)
           1 (mkdate 2000 2 14) (mkdate 1 2 14)); reflexivity.
Defined.

(** ** Without the directory *)

(** X4.  When the [UserData] cog is not loaded, [schedule_birthday],
    [notify_change], [schedule_todays_birthdays] and
    [get_past_upcoming_birthdays] raise [RuntimeError] before doing
    anything: the state is as it was, no task is cancelled and the clock
    is not read.  The sender raises it after its sleep, having sent and
    recorded nothing; a task run in that situation ends with that
    exception, which is logged, and its registry entry stays. *)
Theorem nothing_done_without_directory host self s :
  get_cog_UserData (bot self) = None ->
  (forall user_id birthday now,
     schedule_birthday host self user_id birthday now s
     = (Raise RuntimeError, s))
  /\ (forall user_id,
        notify_change host self user_id s = (Raise RuntimeError, s))
  /\ schedule_todays_birthdays host self s = (Raise RuntimeError, s)
  /\ (forall past upcoming,
        get_past_upcoming_birthdays host self past upcoming s
        = (Raise RuntimeError, s))
  /\ (forall user_id delta,
        send_birthday_message host self user_id delta s
        = (Raise RuntimeError, emit (EvSleep delta) s))
  /\ (forall task t,
        loop_tasks s !! task = Some t -> task_status t = Pending ->
        let s' := run_task host self task s in
        tasks s' = tasks s
        /\ last_birthday_notification s' = last_birthday_notification s
        /\ log s' = log s ++ [EvSleep (task_delta t); EvLogError RuntimeError]
        /\ loop_tasks s' !! task
           = Some {| task_user := task_user t; task_delta := task_delta t;
                     task_status := Finished (Some RuntimeError) |}).
Proof.
  intros Hdb.
  assert (Hsend : forall user_id delta,
    send_birthday_message host self user_id delta s
    = (Raise RuntimeError, emit (EvSleep delta) s)).
  { intros user_id delta.
    unfold send_birthday_message, _get_database, bind, modify.
    by rewrite Hdb. }
  split; [| split; [| split; [| split; [| split]]]].
  - intros. by apply schedule_birthday_unloaded.
  - intros user_id. unfold notify_change, _get_database, bind. by rewrite Hdb.
  - unfold schedule_todays_birthdays, _get_database, bind. by rewrite Hdb.
  - intros past upcoming.
    unfold get_past_upcoming_birthdays, _get_database, bind. by rewrite Hdb.
  - exact Hsend.
  - intros task t Ht Hp. cbn zeta. unfold run_task.
    rewrite Ht, Hp, Hsend. simpl.
    split; [done |]. split; [done |]. split; [by rewrite <- app_assoc |].
    apply list_lookup_insert_eq. by eapply lookup_lt_Some.
Qed.

Lemma nothing_done_without_directory_witness :
  schedule_todays_birthdays basic_host cog_without_directory initial_state
  = (Raise RuntimeError, initial_state)
  /\ notify_change basic_host cog_without_directory 1 initial_state
     = (Raise RuntimeError, initial_state).
Proof.
  destruct (nothing_done_without_directory basic_host cog_without_directory
              initial_state eq_refl) as (_ & H2 & H3 & _).
  split; [exact H3 | exact (H2 1)].
Defined.

(** ** Birthdays of today, of tomorrow, and of the first of January *)

Lemma created_returned host self db user_id birthday now s :
  get_cog_UserData (bot self) = Some db ->
  occurs_in birthday (date_year (dt_date now)) ->
  let tz := effective_timezone db user_id in
  let delta := midnight_delta tz birthday now in
  (0 <= delta < timedelta_hours 24
   \/ (delta < 0
       /\ dt_date (astimezone now tz) = birthday_this_year birthday now)) ->
  schedule_birthday host self user_id birthday (Some now) s
  = (Ok true, created user_id delta (cancelled user_id s)).
Proof.
  intros Hdb Hocc tz delta Hcase.
  rewrite (schedule_birthday_eq _ _ db) by done. cbn zeta.
  by rewrite !decide_True.
Qed.

Lemma not_created_returned host self db user_id birthday now s :
  get_cog_UserData (bot self) = Some db ->
  occurs_in birthday (date_year (dt_date now)) ->
  let tz := effective_timezone db user_id in
  let delta := midnight_delta tz birthday now in
  ~ (0 <= delta < timedelta_hours 24
     \/ (delta < 0
         /\ dt_date (astimezone now tz) = birthday_this_year birthday now)) ->
  schedule_birthday host self user_id birthday (Some now) s
  = (Ok false, cancelled user_id s).
Proof.
  intros Hdb Hocc tz delta Hcase.
  rewrite (schedule_birthday_eq _ _ db) by done. cbn zeta.
  by rewrite decide_True, decide_False.
Qed.

(** A birthday with the month and day of date [d], in the year of [d]. *)
Lemma birthday_on (birthday : date) (now : datetime) (d : date) :
  date_month birthday = date_month d ->
  date_day birthday = date_day d ->
  date_year (dt_date now) = date_year d ->
  birthday_this_year birthday now = d
  /\ occurs_in birthday (date_year (dt_date now)).
Proof.
  intros Hm Hd Hy. destruct (date_fields d) as (Hord & Hmon & Hday).
  unfold birthday_this_year, occurs_in. rewrite Hm, Hd, Hy. auto.
Qed.

(** X5.  In an effective timezone of fixed offset, a user whose birthday
    has the month and day of the current date in that zone (the year of
    that date being the year [now] carries) is always scheduled: the call
    returns [true] and the wait is not positive, and shorter than 24
    hours in absolute value, so the message goes out at once. *)
Theorem birthday_today_is_scheduled
    host self db user_id birthday now off s :
  get_cog_UserData (bot self) = Some db ->
  effective_timezone db user_id = fixed_zone off ->
  let today_there := dt_date (astimezone now (fixed_zone off)) in
  date_month birthday = date_month today_there ->
  date_day birthday = date_day today_there ->
  date_year (dt_date now) = date_year today_there ->
  exists delta,
    schedule_birthday host self user_id birthday (Some now) s
    = (Ok true, created user_id delta (cancelled user_id s))
    /\ - timedelta_hours 24 < delta <= 0.
Proof.
  intros Hdb Hoff today_there Hm Hd Hy.
  destruct (birthday_on birthday now today_there Hm Hd Hy) as [Hbty Hocc].
  pose proof (midnight_of_local_date off now today_there eq_refl) as Hdelta.
  exists (midnight_delta (fixed_zone off) birthday now).
  assert (Hdelta' : - US_PER_DAY
                    < midnight_delta (fixed_zone off) birthday now <= 0)
    by (unfold midnight_delta; by rewrite Hbty).
  rewrite day_is_24_hours. split; [| done].
  rewrite <- Hoff. apply (created_returned _ _ db); [done | done |].
  rewrite Hoff. rewrite day_is_24_hours. fold today_there. rewrite Hbty.
  pose proof US_PER_DAY_pos. lia.
Qed.

Lemma birthday_today_is_scheduled_witness :
  exists delta,
    schedule_birthday basic_host
      (cog_over (directory [(1, mkdate 2000 2 13)] (Some pacific) (Some PUBLIC)))
      1 (mkdate 2000 2 13) (Some basic_now) initial_state
    = (Ok true, created 1 delta (cancelled 1 initial_state))
    /\ - timedelta_hours 24 < delta <= 0.
Proof.
  apply (birthday_today_is_scheduled basic_host
           (cog_over (directory [(1, mkdate 2000 2 13)] (Some pacific)
                        (Some PUBLIC)))
           (directory [(1, mkdate 2000 2 13)] (Some pacific) (Some PUBLIC))
           1 (mkdate 2000 2 13) basic_now (timedelta_hours (-8))
           initial_state);
    reflexivity.
Defined.

(** X6.  In an effective timezone of fixed offset, a user whose birthday
    has the month and day of tomorrow's date in that zone (the year of
    that date being the year [now] carries) is scheduled with a positive
    wait below 24 hours, unless [now] is exactly midnight in that zone:
    then the wait would be 24 hours and the call returns [false]. *)
Theorem birthday_tomorrow_is_scheduled
    host self db user_id birthday now off s :
  get_cog_UserData (bot self) = Some db ->
  effective_timezone db user_id = fixed_zone off ->
  let now_there := astimezone now (fixed_zone off) in
  let tomorrow_there := dt_date now_there + 1 in
  date_month birthday = date_month tomorrow_there ->
  date_day birthday = date_day tomorrow_there ->
  date_year (dt_date now) = date_year tomorrow_there ->
  (naive_time_of_day (dt_wall now_there) <> 0 ->
   exists delta,
     schedule_birthday host self user_id birthday (Some now) s
     = (Ok true, created user_id delta (cancelled user_id s))
     /\ 0 < delta < timedelta_hours 24)
  /\ (naive_time_of_day (dt_wall now_there) = 0 ->
      schedule_birthday host self user_id birthday (Some now) s
      = (Ok false, cancelled user_id s)).
Proof.
  intros Hdb Hoff now_there tomorrow_there Hm Hd Hy.
  destruct (birthday_on birthday now tomorrow_there Hm Hd Hy) as [Hbty Hocc].
  pose proof US_PER_DAY_pos as Hpos.
  pose proof (naive_date_bounds (dt_wall now_there)) as Hwall.
  assert (Hdelta : midnight_delta (fixed_zone off) birthday now
                   = naive_date (dt_wall now_there) * US_PER_DAY
                     - dt_wall now_there).
  { unfold midnight_delta. rewrite Hbty.
    unfold tomorrow_there, dt_date, now_there, astimezone, localize, instant,
      naive_of_date. simpl. lia. }
  assert (Htod : dt_wall now_there
                 = (naive_date (dt_wall now_there) - 1) * US_PER_DAY
                   + naive_time_of_day (dt_wall now_there)).
  { unfold naive_time_of_day, naive_date.
    pose proof (Z.div_mod (dt_wall now_there) US_PER_DAY ltac:(lia)). lia. }
  rewrite day_is_24_hours.
  split; intros Hmid.
  - exists (midnight_delta (fixed_zone off) birthday now).
    split; [| lia].
    rewrite <- Hoff. apply (created_returned _ _ db); [done | done |].
    rewrite Hoff, day_is_24_hours. left. lia.
  - apply (not_created_returned _ _ db); [done | done |].
    rewrite Hoff, day_is_24_hours. lia.
Qed.

Lemma birthday_tomorrow_is_scheduled_witness :
  exists delta,
    schedule_birthday basic_host (cog_over basic_directory)
      1 (mkdate 2000 2 14) (Some basic_now) initial_state
    = (Ok true, created 1 delta (cancelled 1 initial_state))
    /\ 0 < delta < timedelta_hours 24.
Proof.
  apply (proj1
           (birthday_tomorrow_is_scheduled basic_host
              (cog_over basic_directory) basic_directory
              1 (mkdate 2000 2 14) basic_now 0 initial_state
              eq_refl eq_refl eq_refl eq_refl eq_refl)).
  vm_compute. discriminate.
Defined.

(** X7.  The year of the birthday's occurrence is the year [now] carries.
    With [now] and the effective timezone both of fixed offsets within 24
    hours of UTC: on a 31st of December a birthday of the 1st of January
    is never scheduled, however close its midnight is; the call returns
    [false]. *)
Theorem new_year_birthday_not_scheduled_ahead
    host self db user_id birthday now off s :
  get_cog_UserData (bot self) = Some db ->
  effective_timezone db user_id = fixed_zone off ->
  - timedelta_hours 24 <= off <= timedelta_hours 24 ->
  - timedelta_hours 24 <= dt_utcoffset now <= timedelta_hours 24 ->
  date_month (dt_date now) = 12 -> date_day (dt_date now) = 31 ->
  date_month birthday = 1 -> date_day birthday = 1 ->
  schedule_birthday host self user_id birthday (Some now) s
  = (Ok false, cancelled user_id s).
Proof.
  intros Hdb Hoff Hb1 Hb2 Hm Hd Hbm Hbd.
  rewrite day_is_24_hours in *. pose proof US_PER_DAY_pos as Hpos.
  destruct (date_fields (dt_date now)) as (Hord & _ & _).
  rewrite Hm, Hd in Hord.
  set (Y := date_year (dt_date now)) in *.
  assert (Hbty : birthday_this_year birthday now
                 = Calendar.days_before_year Y + 1).
  { unfold birthday_this_year. rewrite Hbm, Hbd. fold Y.
    unfold Calendar.ymd2ord, Calendar.days_before_month. simpl. lia. }
  assert (Htoday : Calendar.days_before_year Y + 365 <= dt_date now).
  { rewrite <- Hord.
    unfold Calendar.ymd2ord, Calendar.days_before_month. simpl.
    destruct (Calendar.is_leap Y); lia. }
  pose proof (naive_date_bounds (dt_wall now)) as Hwall.
  fold (dt_date now) in Hwall.
  apply (not_created_returned _ _ db); [done | |].
  { unfold occurs_in. rewrite Hbm, Hbd. fold Y.
    unfold Calendar.days_in_month. simpl. lia. }
  rewrite Hoff, day_is_24_hours, Hbty.
  assert (Hdelta : midnight_delta (fixed_zone off) birthday now
                   = Calendar.days_before_year Y * US_PER_DAY - off
                     - (dt_wall now - dt_utcoffset now)).
  { unfold midnight_delta. rewrite Hbty.
    unfold localize, instant, naive_of_date. simpl. lia. }
  assert (Hthere : Calendar.days_before_year Y + 362
                   <= (dt_wall now - dt_utcoffset now + off) / US_PER_DAY).
  { apply Z.div_le_lower_bound; [lia |]. nia. }
  intros [Hcase | [_ Hcase]].
  - rewrite Hdelta in Hcase. nia.
  - unfold dt_date, astimezone, naive_date, instant in Hcase. simpl in Hcase.
    lia.
Qed.

Lemma new_year_birthday_not_scheduled_ahead_witness :
  schedule_birthday basic_host (cog_over basic_directory)
    1 (mkdate 2000 1 1) (Some (localize UTC (mknaive 2020 12 31 23 45)))
    initial_state
  = (Ok false, cancelled 1 initial_state).
Proof.
  apply (new_year_birthday_not_scheduled_ahead basic_host
           (cog_over basic_directory) basic_directory
           1 (mkdate 2000 1 1) (localize UTC (mknaive 2020 12 31 23 45))
           0 initial_state);
    (reflexivity || (vm_compute; split; discriminate)).
Defined.

(** ** What a pass counts *)

Lemma schedule_birthday_grows host self user_id birthday now s r s' :
  schedule_birthday host self user_id birthday now s = (Ok r, s') ->
  length (loop_tasks s')
  = (length (loop_tasks s) + (if r then 1 else 0))%nat
  /\ last_birthday_notification s' = last_birthday_notification s.
Proof.
  intros Hcall.
  destruct (schedule_birthday_final host self user_id birthday now s)
    as (s0 & _ & _ & Hn & _ & _).
  destruct (schedule_birthday_result _ _ _ _ _ _ _ _ Hcall)
    as (s1 & delta & Ht & Hl & ->).
  destruct (cancelled_frame user_id s1) as (Hcn & _).
  pose proof (schedule_birthday_final host self user_id birthday now s)
    as (s2 & _ & _ & Hn2 & _ & Hcases).
  rewrite Hcall in Hcases. simpl in Hcases.
  assert (Hlast : last_birthday_notification
                    (if r then created user_id delta (cancelled user_id s1)
                     else cancelled user_id s1)
                  = last_birthday_notification s).
  { destruct (cancelled_frame user_id s2) as (Hcn2 & _).
    destruct Hcases as [-> | [-> | [d ->]]]; [done | congruence |].
    simpl. congruence. }
  split; [| exact Hlast].
  destruct r.
  - rewrite created_loop_tasks, length_app, cancelled_length, Hl. simpl. lia.
  - rewrite cancelled_length, Hl. lia.
Qed.

Lemma schedule_each_count host self now birthdays count s count' s' :
  schedule_each host self now birthdays count s = (Ok count', s') ->
  count <= count' <= count + Z.of_nat (length birthdays)
  /\ Z.of_nat (length (loop_tasks s'))
     = Z.of_nat (length (loop_tasks s)) + (count' - count)
  /\ last_birthday_notification s' = last_birthday_notification s.
Proof.
  revert count s.
  induction birthdays as [|[user_id birthday] rest IH]; intros count s.
  - intros [= <- <-]. simpl. split; [lia |]. split; [lia | done].
  - simpl. unfold bind at 1.
    destruct (schedule_birthday host self user_id birthday (Some now) s)
      as [[r|e] s1] eqn:Hcall; [| done].
    intros Hrest. apply IH in Hrest as (Hc & Hlen & Hlast).
    apply schedule_birthday_grows in Hcall as [Hg Hn].
    cbn [length]. rewrite Nat2Z.inj_succ.
    split; [destruct r; lia |]. split; [destruct r; lia | congruence].
Qed.

(** X9.  When a pass returns, the count it reports is the number of tasks
    it has added to the loop: it lies between zero and the number of
    pairs the directory answered, and the pass has recorded no
    notification time. *)
Theorem pass_counts_created_tasks host self db s count s' :
  get_cog_UserData (bot self) = Some db ->
  schedule_todays_birthdays host self s = (Ok count, s') ->
  let now := localize (localzone host) (clock host (clock_reads s)) in
  let today := dt_date now in
  0 <= count
    <= Z.of_nat
         (length
            (get_birthdays_range db (last_birthday_notification s)
               (today - 1) (today + 1)
               (Some (dt_minus now (timedelta_hours 24)))))
  /\ Z.of_nat (length (loop_tasks s'))
     = Z.of_nat (length (loop_tasks s)) + count
  /\ last_birthday_notification s' = last_birthday_notification s.
Proof.
  intros Hdb Hpass. cbn zeta.
  pose proof (schedule_todays_birthdays_eq host self db s Hdb) as Heq.
  cbn zeta in Heq. rewrite Heq in Hpass.
  destruct (decide _); [| done].
  apply schedule_each_count in Hpass as (Hc & Hlen & Hlast).
  simpl in Hlen, Hlast. split; [lia |]. split; [lia | done].
Qed.

Lemma pass_counts_created_tasks_witness :
  let pass := schedule_todays_birthdays basic_host (cog_over basic_directory)
                initial_state in
  pass.1 = Ok 1
  /\ Z.of_nat (length (loop_tasks pass.2)) = 0 + 1.
Proof.
  cbn zeta.
  destruct (pass_counts_created_tasks basic_host (cog_over basic_directory)
              basic_directory initial_state 1
              (schedule_todays_birthdays basic_host (cog_over basic_directory)
                 initial_state).2
              eq_refl ltac:(vm_compute; reflexivity))
    as (_ & H & _).
  split; [reflexivity | exact H].
Defined.

(** ** What the sender sends *)

(** X10.  What goes out is what is public.  With the directory loaded,
    the sender logs its sleep and then sends only; every message carries
    the user's id; it carries no age and a template of the pool without
    age unless the age privacy is PUBLIC; and unless the name privacy is
    PUBLIC the name it shows is the display name of the user's membership
    in a guild shared with the bot. *)
Theorem sender_keeps_private_fields host self db user_id delta s :
  get_cog_UserData (bot self) = Some db ->
  exists out,
    log (send_birthday_message host self user_id delta s).2
    = log s ++ EvSleep delta :: out
    /\ forall e, e ∈ out ->
         exists channel msg,
           e = EvSend channel msg
           /\ msg_user_id msg = user_id
           /\ (get_privacy_age db user_id <> Some PUBLIC ->
               msg_age msg = None
               /\ msg_template msg ∈ message_templates_no_age self)
           /\ (get_privacy_age db user_id = Some PUBLIC ->
               msg_age msg = get_age db user_id)
           /\ (get_privacy_preferred_name db user_id <> Some PUBLIC ->
               exists user guild member,
                 get_user (bot self) user_id = Some user
                 /\ guild ∈ mutual_guilds user
                 /\ guild_get_member guild user_id = Some member
                 /\ msg_name msg = display_name member).
Proof.
  intros Hdb.
  destruct (sender_outputs host self db user_id delta s Hdb)
    as (served & out & Hlog & Hsub & Hall & _).
  exists out. split; [done |]. intros e He.
  apply list_elem_of_lookup in He as [i Hi].
  destruct (Forall2_lookup_r _ _ _ _ _ Hall Hi)
    as (guild & Hguild & member & channel & template & text & -> & Hm & _ & _
        & Hpool & _).
  apply list_elem_of_lookup_2 in Hguild.
  pose proof (elem_of_sublist _ _ _ Hguild Hsub) as Hin.
  destruct (get_user (bot self) user_id) as [user|];
    [| by apply elem_of_nil in Hin].
  exists (channel_id channel). eexists. split; [reflexivity |]. simpl.
  split; [done |]. split; [| split].
  - intros Hage. unfold template_pool, disclosed_age in *.
    destruct (get_privacy_age db user_id) as [[]|]; try done.
  - intros Hage. unfold disclosed_age. by rewrite Hage.
  - intros Hname. exists user, guild, member.
    split; [done |]. split; [done |]. split; [done |].
    unfold disclosed_name.
    by destruct (get_privacy_preferred_name db user_id) as [[]|].
Qed.

Lemma sender_keeps_private_fields_witness :
  exists out,
    log (send_birthday_message basic_host
           (cog_over (directory [(1, mkdate 2000 2 14)] (Some UTC)
                        (Some PRIVATE)))
           1 0 initial_state).2
    = EvSleep 0 :: out
    /\ forall e, e ∈ out ->
         exists channel msg, e = EvSend channel msg /\ msg_age msg = None.
Proof.
  destruct (sender_keeps_private_fields basic_host
              (cog_over (directory [(1, mkdate 2000 2 14)] (Some UTC)
                           (Some PRIVATE)))
              (directory [(1, mkdate 2000 2 14)] (Some UTC) (Some PRIVATE))
              1 0 initial_state eq_refl) as (out & Hlog & Hall).
  exists out. split; [exact Hlog |].
  intros e He. destruct (Hall e He) as (channel & msg & -> & _ & Hage & _).
  exists channel, msg. split; [reflexivity |].
  apply Hage. simpl. discriminate.
Defined.

(** X11.  One message for a guild, at most.  With the directory loaded,
    what the sender sends after its sleep is, in their order, one message
    for each guild of a sublist of the guilds the user shares with the
    bot: no guild of that list gets two.  The message of a guild goes to
    the channel that guild's birthday channel id resolves to, the user
    being a member of that guild; its text is what the formatter made of
    its template.  When the gateway does not know the user nothing is
    sent. *)
Theorem sender_one_message_per_guild host self db user_id delta s :
  get_cog_UserData (bot self) = Some db ->
  exists served out,
    log (send_birthday_message host self user_id delta s).2
    = log s ++ EvSleep delta :: out
    /\ (get_user (bot self) user_id = None -> out = [])
    /\ (forall user,
          get_user (bot self) user_id = Some user ->
          sublist served (mutual_guilds user))
    /\ Forall2
         (fun guild e =>
            exists member bday_channel_id channel msg,
              e = EvSend (channel_id channel) msg
              /\ guild_get_member guild user_id = Some member
              /\ get_guild_birthday_channel db (guild_id guild)
                 = Some bday_channel_id
              /\ get_channel (bot self) bday_channel_id = Some channel
              /\ send_fails channel = false
              /\ format_birthday_message host (msg_template msg) user_id
                   (msg_name msg) (msg_age msg)
                 = Ok (msg_text msg))
         served out.
Proof.
  intros Hdb.
  destruct (sender_outputs host self db user_id delta s Hdb)
    as (served & out & Hlog & Hsub & Hall & _).
  exists served, out. split; [done |].
  split; [| split].
  - intros Hnone. rewrite Hnone in Hsub.
    apply sublist_nil_r in Hsub. subst served.
    by apply Forall2_nil_inv_l in Hall.
  - intros user Huser. by rewrite Huser in Hsub.
  - eapply Forall2_impl; [exact Hall |].
    intros guild e
      (member & channel & template & text & -> & Hm & Hel & Hok & _ & Hfmt).
    unfold eligible_channel in Hel. rewrite Hm in Hel.
    destruct (get_guild_birthday_channel db (guild_id guild)) as [cid|] eqn:Hcid;
      [| done].
    exists member, cid, channel. eexists.
    split; [reflexivity |]. by repeat split.
Qed.

Lemma sender_one_message_per_guild_witness :
  exists served out,
    log (send_birthday_message basic_host (cog_over basic_directory)
           1 0 initial_state).2
    = EvSleep 0 :: out
    /\ sublist served [main_guild]
    /\ length out = length served.
Proof.
  destruct (sender_one_message_per_guild basic_host (cog_over basic_directory)
              basic_directory 1 0 initial_state eq_refl)
    as (served & out & Hlog & _ & Hsome & Hall).
  exists served, out. split; [exact Hlog |].
  split; [exact (Hsome {| mutual_guilds := [main_guild] |} eq_refl) |].
  symmetry. exact (Forall2_length _ _ _ Hall).
Defined.

(** ** A send that fails *)




(** ** A time of day, today, in a zone *)

(** X14.  For a time of day within the day, [localize_time_to_datetime]
    reads the clock once and never raises; the datetime it returns is
    localized in the basis zone, falls on the date it currently is in
    that zone, and is at the hour and minute given, the seconds and
    microseconds of the time being dropped. *)
Theorem localize_time_keeps_today host (t : time) basis_tz s :
  0 <= hour t <= 23 -> 0 <= minute t <= 59 ->
  let now := localize (localzone host) (clock host (clock_reads s)) in
  let today := dt_date (astimezone now basis_tz) in
  let wall :=
    naive_of_date today
    + timedelta_hours (hour t) + timedelta_minutes (minute t) in
  localize_time_to_datetime host t basis_tz s
  = (Ok (localize basis_tz wall), tick_clock s)
  /\ dt_date (localize basis_tz wall) = today
  /\ naive_time_of_day wall
     = timedelta_hours (hour t) + timedelta_minutes (minute t).
Proof.
  intros Hh Hm now today wall.
  destruct (date_fields today) as (Hord & Hmon & Hday).
  assert (Hsmall : 0 <= timedelta_hours (hour t) + timedelta_minutes (minute t)
                   < US_PER_DAY).
  { unfold timedelta_hours, timedelta_minutes, US_PER_DAY, US_PER_SECOND. lia. }
  split; [| split].
  - unfold localize_time_to_datetime, utc_now, datetime_now, bind.
    cbn [ret]. fold now. fold today. unfold datetime_ymdhm.
    replace (_ && _) with true.
    + unfold ret. subst wall. by rewrite Hord.
    + symmetry. repeat (apply andb_true_intro; split); apply Z.leb_le; lia.
  - unfold dt_date, localize, naive_date. simpl. subst wall.
    replace (naive_of_date today + timedelta_hours (hour t)
             + timedelta_minutes (minute t))
      with (timedelta_hours (hour t) + timedelta_minutes (minute t)
            + (today - 1) * US_PER_DAY)
      by (unfold naive_of_date; lia).
    rewrite Z.div_add by discriminate.
    rewrite Z.div_small by done. lia.
  - unfold naive_time_of_day. subst wall.
    replace (naive_of_date today + timedelta_hours (hour t)
             + timedelta_minutes (minute t))
      with (timedelta_hours (hour t) + timedelta_minutes (minute t)
            + (today - 1) * US_PER_DAY)
      by (unfold naive_of_date; lia).
    rewrite Z_mod_plus_full. by apply Z.mod_small.
Qed.

Lemma localize_time_keeps_today_witness :
  localize_time_to_datetime basic_host
    {| hour := 9; minute := 30; second := 59; microsecond := 0 |}
    pacific initial_state
  = (Ok (localize pacific (mknaive 2020 2 13 9 30)), tick_clock initial_state).
Proof.
  refine (proj1 (localize_time_keeps_today basic_host
                   {| hour := 9; minute := 30; second := 59; microsecond := 0 |}
                   pacific initial_state _ _)); simpl; lia.
Defined.

(** ** The completion hook of the profile commands *)

(** X15.  The hook that runs when a profile command completes leaves the
    state as it is after a failed command, after a command other than the
    five that change what the scheduler reads, and when no birthdays cog
    is loaded.  After one of the five, with the directory loaded and the
    author's birthday now absent or private, it returns having cancelled
    the task the author's entry names and removed the entry; the entries
    of the other users are as they were; and in a state that satisfies
    the registry invariant the author is left without a live task. *)
Theorem hook_cancels_for_the_author host cog db ctx s :
  get_cog_UserData (bot cog) = Some db ->
  (forall birthdays_cog,
     command_failed ctx = true
     \/ qualified_name ctx
        ∉ ["birthday set"; "timezone set"; "privacy all";
           "privacy birthday"; "privacy timezone"]%string
     \/ birthdays_cog = None ->
     notify_birthdays_cog host birthdays_cog ctx s = (Ok tt, s))
  /\ (command_failed ctx = false ->
      qualified_name ctx
      ∈ ["birthday set"; "timezone set"; "privacy all";
         "privacy birthday"; "privacy timezone"]%string ->
      get_birthday db (author_id ctx) = None
      \/ get_privacy_birthday db (author_id ctx) = Some PRIVATE ->
      exists s',
        notify_birthdays_cog host (Some cog) ctx s = (Ok tt, s')
        /\ tasks s' !! author_id ctx = None
        /\ (forall other, other <> author_id ctx ->
              tasks s' !! other = tasks s !! other)
        /\ (forall task t,
              tasks s !! author_id ctx = Some task ->
              loop_tasks s !! task = Some t ->
              loop_tasks s' !! task = Some (cancel t))
        /\ (registry_inv s -> live_tasks s' (author_id ctx) = [])).
Proof.
  intros Hdb. split.
  - intros birthdays_cog Hcase. unfold notify_birthdays_cog.
    destruct (command_failed ctx); [done |].
    case_bool_decide as Hin; [| done].
    destruct Hcase as [? | [? | Hnone]]; [done | done |]. by rewrite Hnone.
  - intros Hok Hin Hgone. unfold notify_birthdays_cog.
    rewrite Hok, bool_decide_eq_true_2 by done.
    exists (cancelled (author_id ctx) s).
    split.
    + unfold notify_change, _get_database, bind. rewrite Hdb. cbn [ret].
      destruct (get_birthday db (author_id ctx)) as [birthday|];
        [| apply try_cancel_task_eq].
      destruct Hgone as [|Hp]; [done |].
      rewrite bool_decide_eq_true_2 by done. apply try_cancel_task_eq.
    + split; [apply cancelled_lookup |].
      split; [intros other Hne; rewrite cancelled_tasks;
              by apply lookup_delete_ne |].
      split; [intros task t; apply cancelled_registered |].
      intros Hinv.
      apply no_entry_no_live; [by apply cancelled_inv | apply cancelled_lookup].
Qed.

Lemma hook_cancels_for_the_author_witness :
  let cog :=
    cog_over (directory [(1, mkdate 2000 2 14)] (Some UTC) (Some PRIVATE)) in
  let s := (schedule_birthday basic_host cog 1 (mkdate 2000 2 14)
              (Some basic_now) initial_state).2 in
  exists s',
    notify_birthdays_cog basic_host (Some cog)
      {| command_failed := false; qualified_name := "privacy birthday";
         author_id := 1 |} s
    = (Ok tt, s')
    /\ live_tasks s' 1 = [].
Proof.
  cbn zeta.
  destruct (proj2
              (hook_cancels_for_the_author basic_host
                 (cog_over (directory [(1, mkdate 2000 2 14)] (Some UTC)
                              (Some PRIVATE)))
                 (directory [(1, mkdate 2000 2 14)] (Some UTC) (Some PRIVATE))
                 {| command_failed := false;
                    qualified_name := "privacy birthday"; author_id := 1 |}
                 (schedule_birthday basic_host
                    (cog_over (directory [(1, mkdate 2000 2 14)] (Some UTC)
                                 (Some PRIVATE)))
                    1 (mkdate 2000 2 14) (Some basic_now) initial_state).2
                 eq_refl)
              eq_refl ltac:(set_solver) (or_intror eq_refl))
    as (s' & H1 & _ & _ & _ & H2).
  exists s'. split; [exact H1 |].
  apply H2. apply schedule_birthday_inv, initial_state_inv.
Defined.

(** ** A call suspended while another user is served *)

Lemma created_live_other (user_id other delta : Z) (s : State) :
  other <> user_id ->
  live_tasks (created user_id delta s) other = live_tasks s other.
Proof.
  intros Hne. unfold live_tasks.
  rewrite created_loop_tasks, filter_app.
  rewrite filter_cons_False, filter_nil, app_nil_r; [done |].
  intros [Hu _]. simpl in Hu. congruence.
Qed.

(** X16.  Calls for different users may interleave.  A call of
    [schedule_birthday] for one user is suspended after its cancel; a
    whole call for another user runs; the first call is resumed.  In a
    state that satisfies the registry invariant this keeps the invariant;
    the resumed call decides as it would have without the other call, it
    leaves its user one live task when it returns [true] and none when it
    returns [false], and it leaves the entry and the live tasks of the
    other user as the other call left them. *)
Theorem other_user_between_the_stretches
    host self db user_id birthday now now' other birthday' now_other s s1 :
  registry_inv s ->
  other <> user_id ->
  schedule_birthday_until_await host self user_id now s = (Ok (db, now'), s1) ->
  let s2 := (schedule_birthday host self other birthday' now_other s1).2 in
  let resumed := schedule_birthday_after_await db user_id birthday now' s2 in
  registry_inv resumed.2
  /\ resumed.1 = (schedule_birthday_after_await db user_id birthday now' s1).1
  /\ tasks resumed.2 !! other = tasks s2 !! other
  /\ live_tasks resumed.2 other = live_tasks s2 other
  /\ (forall r, resumed.1 = Ok r ->
        length (live_tasks resumed.2 user_id) = if r then 1%nat else 0%nat).
Proof.
  intros Hinv Hne Huntil. cbn zeta.
  destruct (schedule_birthday_until_await_inv host self user_id now s Hinv)
    as [Hinv1 Hnone1].
  rewrite Huntil in Hinv1. simpl in Hinv1.
  specialize (Hnone1 _ _ Huntil).
  pose proof (schedule_birthday_inv host self other birthday' now_other s1 Hinv1)
    as Hinv2.
  assert (Hnone2 :
    tasks (schedule_birthday host self other birthday' now_other s1).2
      !! user_id = None).
  { destruct (schedule_birthday_final host self other birthday' now_other s1)
      as (s0 & Ht & _ & _ & _ & Hcases).
    destruct Hcases as [-> | [-> | [delta ->]]]; [done | |].
    - rewrite cancelled_tasks, lookup_delete_ne by done. by rewrite Ht.
    - rewrite created_tasks, lookup_insert_ne by done.
      rewrite cancelled_tasks, lookup_delete_ne by done. by rewrite Ht. }
  set (s2 := (schedule_birthday host self other birthday' now_other s1).2) in *.
  split; [by apply schedule_birthday_after_await_inv |].
  rewrite !schedule_birthday_after_await_eq. cbn zeta.
  destruct (decide (occurs_in _ _));
    [| split; [done |]; split; [done |]; split; [done |]; by intros r].
  destruct (decide (_ \/ _)); cbn [fst snd].
  - split; [done |].
    split; [by rewrite created_tasks, lookup_insert_ne |].
    split; [by apply created_live_other |].
    intros r [= <-]. by rewrite created_live.
  - split; [done |]. split; [done |]. split; [done |].
    intros r [= <-]. by rewrite no_entry_no_live.
Qed.

Lemma other_user_between_the_stretches_witness :
  let self := cog_over basic_directory in
  let s1 :=
    (schedule_birthday_until_await basic_host self 1 (Some basic_now)
       initial_state).2 in
  let s2 :=
    (schedule_birthday basic_host self 2 (mkdate 1990 2 14) (Some basic_now)
       s1).2 in
  let resumed :=
    schedule_birthday_after_await basic_directory 1 (mkdate 2000 2 14)
      basic_now s2 in
  resumed.1 = Ok true
  /\ length (live_tasks resumed.2 1) = 1%nat
  /\ length (live_tasks resumed.2 2) = 1%nat.
Proof.
  cbn zeta.
  destruct (other_user_between_the_stretches basic_host
              (cog_over basic_directory) basic_directory 1 (mkdate 2000 2 14)
              (Some basic_now) basic_now 2 (mkdate 1990 2 14) (Some basic_now)
              initial_state
              (schedule_birthday_until_await basic_host
                 (cog_over basic_directory) 1 (Some basic_now)
                 initial_state).2
              initial_state_inv ltac:(discriminate) eq_refl)
    as (_ & _ & _ & Hother & Hlive).
  split; [reflexivity |].
  split; [exact (Hlive true eq_refl) |].
  rewrite Hother. reflexivity.
Defined.
